(** * Beacon-kit block processing core: a shallow embedding

  The development follows the Go packages it embeds:

  - [Go]            the few pieces of Go's semantics the code relies on
                    (uint64 arithmetic, interface values, early returns,
                    panics, defer, errgroup);
  - [Primitives]    hashes, errors, the payload and beacon-state interfaces;
  - [Verification]  the payload verifier ([VerifyPayload]);
  - [Logs]          beacon/execution/logs/cache.go;
  - [Deposit]       the deposit service ([handleDepositEvent]);
  - [Blockchain]    beacon/blockchain/process.go and the forkchoice
                    notifier ([sendFCU], [sendPostBlockFCU]).

  - [Ssz], [EnginePrimitives]  the SSZ codec of Withdrawal
                    (withdrawal.ssz.go) and the fastssz helpers it calls;
  - [Comet]         the RPC server configuration (server.go).

  The properties follow, one module per package: [LogsProps],
  [VerificationProps], [DepositProps], [CometProps], [BlockchainProps],
  [EnginePrimitivesProps].

  Methods with a pointer receiver are written in state-passing style: they
  take the receiver and return the updated receiver next to their result.
  Collaborators that are not part of these packages (the execution engine,
  the state processor, the validators, the stores) are fields of a service
  record; every call to one of them is recorded in a trace. *)

From Stdlib Require Import ZArith List Bool String Lia.
From Stdlib Require Strings.Byte.
Import ListNotations.
Local Open Scope Z_scope.

(* ===================================================================== *)
(** * Go semantics used by the code *)
(* ===================================================================== *)

Module Go.

(** [uint64] values are integers in [0, 2^64); arithmetic wraps. *)
Definition uint64 := Z.
Definition two64 : Z := 2 ^ 64.
Definition is_uint64 (x : Z) : Prop := 0 <= x < two64.
Definition wrap64 (x : Z) : Z := x mod two64.

(** [a - b] on unsigned 64-bit operands. *)
Definition sub64 (a b : uint64) : uint64 := wrap64 (a - b).

(** [a % b] on unsigned operands: integer division by zero is a run-time
    panic, reported here as [None]. *)
Definition mod64 (a b : uint64) : option uint64 :=
  if b =? 0 then None else Some (a mod b).

(** A Go [error] value: [None] is the nil error. *)
Definition error (E : Type) := option E.

(** The pair [(value, err)] a fallible call returns. *)
Inductive result (E A : Type) : Type :=
| Ok (a : A)
| Err (e : E).
Arguments Ok {E A} a.
Arguments Err {E A} e.

(** A value of interface type: [None] is the nil interface, [Some d] an
    interface holding the dynamic value [d].  An interface that holds a nil
    pointer is a [Some]: it differs from nil under [==], and its methods can
    be called. *)
Definition iface (D : Type) := option D.

(** The [IsNil() bool] method the block, body and payload interfaces share. *)
Class Nillable (D : Type) := IsNil : D -> bool.

(** ** Statements of a function body

    Running statements either falls through to the next one with a value,
    executes a [return], or panics. *)
Inductive exec (R A : Type) : Type :=
| Next (a : A)
| Return (r : R)
| Panic.
Arguments Next {R A} a.
Arguments Return {R A} r.
Arguments Panic {R A}.

Definition exec_bind {R A B} (c : exec R A) (k : A -> exec R B) : exec R B :=
  match c with
  | Next a => k a
  | Return r => Return r
  | Panic => Panic
  end.

(** [v, err := f(); if err != nil { return wrap(err) }] *)
Definition exec_try {E E' A} (wrap : E -> E') (r : result E A)
  : exec (error E') A :=
  match r with
  | Ok a => Next a
  | Err e => Return (Some (wrap e))
  end.

(** [if cond { return r }] *)
Definition exec_return_if {R} (cond : bool) (r : R) : exec R unit :=
  if cond then Return r else Next tt.

(** ** Function bodies with a frame and a call trace

    [Proc F Ev R A]: statements that read and write the local frame [F]
    (the variables a deferred closure can see), record the calls made to
    collaborators as events [Ev], and fall through, return or panic. *)
Definition Proc (F Ev R A : Type) : Type := F -> F * list Ev * exec R A.

Section ProcOps.
Context {F Ev R : Type}.

Definition ret {A} (a : A) : Proc F Ev R A := fun f => (f, [], Next a).

Definition bind {A B} (c : Proc F Ev R A) (k : A -> Proc F Ev R B)
  : Proc F Ev R B :=
  fun f =>
    let '(f1, t1, x) := c f in
    match x with
    | Next a => let '(f2, t2, y) := k a f1 in (f2, t1 ++ t2, y)
    | Return r => (f1, t1, Return r)
    | Panic => (f1, t1, Panic)
    end.

Definition return_ {A} (r : R) : Proc F Ev R A := fun f => (f, [], Return r).
Definition panic {A} : Proc F Ev R A := fun f => (f, [], Panic).
Definition emit (e : Ev) : Proc F Ev R unit := fun f => (f, [e], Next tt).
Definition load : Proc F Ev R F := fun f => (f, [], Next f).
Definition store (v : F) : Proc F Ev R unit := fun _ => (v, [], Next tt).

(** The receiver of a method call: calling a method on the nil interface
    panics. *)
Definition method {D} (x : iface D) : Proc F Ev R D :=
  match x with
  | Some d => ret d
  | None => panic
  end.

(** [if cond { return r }] *)
Definition return_if (cond : bool) (r : R) : Proc F Ev R unit :=
  if cond then return_ r else ret tt.

(** [v, err := f(); if err != nil { return wrap(err) }] *)
Definition try {E E' A} (wrap : E -> E') (r : result E A)
  (onErr : E' -> R) : Proc F Ev R A :=
  match r with
  | Ok a => ret a
  | Err e => return_ (onErr (wrap e))
  end.

End ProcOps.

(** The parts of a finished run. *)
Definition frameOf {F Ev R A} (run : F * list Ev * exec R A) : F :=
  fst (fst run).
Definition traceOf {F Ev R A} (run : F * list Ev * exec R A) : list Ev :=
  snd (fst run).
Definition resultOf {F Ev R A} (run : F * list Ev * exec R A) : exec R A :=
  snd run.

(** What a call of a function gives its caller: the callee runs on a frame
    of its own; falling off its end and returning are the same to the
    caller, a panic propagates. *)
Definition call {F F' Ev R R'} (callee : Proc F' Ev R' R') (frame : F')
  : Proc F Ev R R' :=
  fun f =>
    let '(_, t, x) := callee frame in
    (f, t, match x with
           | Next r | Return r => Next r
           | Panic => Panic
           end).

(** [defer d(&frame); body]: when [body] returns or panics, [d] runs on the
    frame as it is at that moment; afterwards the function returns what
    [body] returned, or keeps panicking. *)
Definition with_defer {F Ev R} (d : F -> Proc unit Ev unit unit)
  (body : Proc F Ev R R) : Proc F Ev R R :=
  fun f =>
    let '(f1, t1, x) := body f in
    let '(_, t2, y) := d f1 tt in
    (f1, t1 ++ t2, match y with
                   | Panic => Panic
                   | _ => x
                   end).

(** ** errgroup: two goroutines and a Wait

    [interleave picks a b] merges the events of two goroutines in the order
    the scheduler picked ([true]: the next event is the first goroutine's). *)
Fixpoint interleave {Ev} (picks : list bool) (a b : list Ev) : list Ev :=
  match picks with
  | [] => a ++ b
  | true :: picks' =>
      match a with
      | [] => b
      | x :: a' => x :: interleave picks' a' b
      end
  | false :: picks' =>
      match b with
      | [] => a
      | y :: b' => y :: interleave picks' a b'
      end
  end.

Record Schedule := {
  picks : list bool;
  (** does the first goroutine return before the second? *)
  firstReturnsFirst : bool
}.

(** [g.Wait()] after two [g.Go]: the first non-nil error returned, in the
    order the goroutines returned ([errOnce] keeps the first). *)
Definition Wait {E} (sch : Schedule) (ea eb : error E) : error E :=
  if firstReturnsFirst sch then
    match ea with Some e => Some e | None => eb end
  else
    match eb with Some e => Some e | None => ea end.

End Go.

Declare Scope exec_scope.
Declare Scope proc_scope.
Notation "x <- c ;; k" := (Go.exec_bind c (fun x => k))
  (at level 61, c at next level, right associativity) : exec_scope.
Notation "c ;; k" := (Go.exec_bind c (fun _ => k))
  (at level 61, right associativity) : exec_scope.
Notation "x <- c ;; k" := (Go.bind c (fun x => k))
  (at level 61, c at next level, right associativity) : proc_scope.
Notation "c ;; k" := (Go.bind c (fun _ => k))
  (at level 61, right associativity) : proc_scope.

(* ===================================================================== *)
(** * Primitive types shared by the packages *)
(* ===================================================================== *)

Module Primitives.
Import Go.

(** 32-byte arrays ([ExecutionHash], [Root], [Bytes32]) read as 256-bit
    integers; Go's [==] on arrays is equality of the integers. *)
Definition ExecutionHash := Z.
Definition Root := Z.
Definition Bytes32 := Z.
Definition Slot := uint64.
Definition Epoch := uint64.

(** The fields of [Withdrawal] (withdrawal.ssz.go); the address is a
    20-byte array. *)
Record Withdrawal := {
  Index : uint64;
  Validator : uint64;
  Address : Z;
  Amount : uint64
}.

(** Error values.  [ErrNilBlkBody] and [ErrNilPayload] are the sentinels of
    package beacontypes; [ErrorsNew] and [ErrorsNewf] are the values built
    by [errors.New(msg)] and [errors.Newf(format, args...)]; [Collab who msg]
    is an error value created by the collaborator [who] and handed back
    unchanged. *)
Inductive Collaborator :=
| StateAccessor
| PayloadValidator
| BlockValidator
| ExecutionService
| EngineClient
| StateProcessor
| ForkchoiceStore
| DepositContract
| DepositStore.

Inductive Error :=
| ErrNilBlkBody
| ErrNilPayload
| ErrorsNew (msg : string)
| ErrorsNewf (format : string) (args : list Z)
| Collab (who : Collaborator) (msg : string).

(** An execution payload behind its interface: what its methods return. *)
Record ExecutionPayloadData := {
  payloadIsNil : bool;
  GetBlockHash : ExecutionHash;
  GetParentHash : ExecutionHash;
  GetPrevRandao : Bytes32;
  GetWithdrawals : list Withdrawal
}.
Definition ExecutionPayload := iface ExecutionPayloadData.

#[export] Instance ExecutionPayload_Nillable : Nillable ExecutionPayloadData :=
  payloadIsNil.

Record ExecutionPayloadHeaderData := {
  headerBlockHash : ExecutionHash
}.
Definition ExecutionPayloadHeader := iface ExecutionPayloadHeaderData.

(** The read interface of the beacon state: what each accessor returns. *)
Record BeaconState := {
  GetLatestExecutionPayloadHeader : result string ExecutionPayloadHeader;
  GetLatestExecutionPayload : result string ExecutionPayload;
  GetSlot : result string Slot;
  GetRandaoMixAtIndex : uint64 -> result string Bytes32
}.

(** The chain-spec methods the code calls.  [SlotToEpoch] is not among the
    sources and stays a field. *)
Record ChainSpec := {
  SlotToEpoch : Slot -> Epoch;
  EpochsPerHistoricalVector : uint64;
  MaxWithdrawalsPerPayload : uint64
}.

End Primitives.

(* ===================================================================== *)
(** * package verification: the payload verifier *)
(* ===================================================================== *)

Module Verification.
Import Go Primitives.
Local Open Scope exec_scope.

Record PayloadVerifier := {
  cs : ChainSpec
}.

Definition fmtParent : string :=
  "parent block with hash %x is not finalized, expected finalized hash %x".
Definition fmtRandao : string :=
  "prev randao does not match, expected: %x, got: %x".
Definition fmtWithdrawals : string :=
  "too many withdrawals, expected: %d, got: %d".

(** The receiver of a method call in a function without a trace. *)
Definition receiver {R D} (x : iface D) : exec R D :=
  match x with
  | Some d => Next d
  | None => Panic
  end.

Definition VerifyPayload (pv : PayloadVerifier) (st : BeaconState)
  (payload : ExecutionPayload) : exec (error Error) (error Error) :=
  latestExecutionPayloadHeader <-
    exec_try (Collab StateAccessor) (GetLatestExecutionPayloadHeader st) ;;
  header <- receiver latestExecutionPayloadHeader ;;
  let safeHash := headerBlockHash header in
  p <- receiver payload ;;
  exec_return_if (negb (safeHash =? GetParentHash p))
    (Some (ErrorsNewf fmtParent [GetParentHash p; safeHash])) ;;
  slot <- exec_try (Collab StateAccessor) (GetSlot st) ;;
  index <-
    match mod64 (SlotToEpoch (cs pv) slot) (EpochsPerHistoricalVector (cs pv)) with
    | Some i => Next i
    | None => Panic
    end ;;
  expectedMix <-
    exec_try (Collab StateAccessor) (GetRandaoMixAtIndex st index) ;;
  exec_return_if (negb (GetPrevRandao p =? expectedMix))
    (Some (ErrorsNewf fmtRandao [expectedMix; GetPrevRandao p])) ;;
  let withdrawals := GetWithdrawals p in
  exec_return_if
    (Z.of_nat (List.length (GetWithdrawals p)) >? MaxWithdrawalsPerPayload (cs pv))
    (Some (ErrorsNewf fmtWithdrawals
             [MaxWithdrawalsPerPayload (cs pv); Z.of_nat (List.length withdrawals)])) ;;
  Return None.

(** The three rules in the spec's words, over the values the accessors
    returned: the first rule that fails gives the error. *)
Definition firstViolation (maxWithdrawals : uint64)
  (safeHash : ExecutionHash) (expectedMix : Bytes32)
  (p : ExecutionPayloadData) : error Error :=
  if negb (GetParentHash p =? safeHash) then
    Some (ErrorsNewf fmtParent [GetParentHash p; safeHash])
  else if negb (GetPrevRandao p =? expectedMix) then
    Some (ErrorsNewf fmtRandao [expectedMix; GetPrevRandao p])
  else if negb (Z.of_nat (List.length (GetWithdrawals p)) <=? maxWithdrawals) then
    Some (ErrorsNewf fmtWithdrawals
            [maxWithdrawals; Z.of_nat (List.length (GetWithdrawals p))])
  else None.

(** ** A small chain for examples: 32 slots per epoch, 8 historical mixes,
    at most 16 withdrawals; the state is at slot 100 (epoch 3), its latest
    payload header has block hash 170 and its mix at index [i] is
    [1000 + i]. *)
Definition sampleSpec : ChainSpec :=
  {| SlotToEpoch := fun slot => slot / 32;
     EpochsPerHistoricalVector := 8;
     MaxWithdrawalsPerPayload := 16 |}.

Definition sampleVerifier : PayloadVerifier := {| cs := sampleSpec |}.

Definition sampleHeader : ExecutionPayloadHeaderData :=
  {| headerBlockHash := 170 |}.

Definition sampleWithdrawal : Withdrawal :=
  {| Index := 0; Validator := 1; Address := 2; Amount := 3 |}.

Definition samplePayload (parentHash : ExecutionHash) (prevRandao : Bytes32)
  (withdrawals : nat) : ExecutionPayloadData :=
  {| payloadIsNil := false;
     GetBlockHash := 187;
     GetParentHash := parentHash;
     GetPrevRandao := prevRandao;
     GetWithdrawals := repeat sampleWithdrawal withdrawals |}.

Definition sampleState : BeaconState :=
  {| GetLatestExecutionPayloadHeader := Ok (Some sampleHeader);
     GetLatestExecutionPayload := Ok (Some (samplePayload 153 1002 0));
     GetSlot := Ok 100;
     GetRandaoMixAtIndex := fun i => Ok (1000 + i) |}.

(** A state of which only the latest header can be read. *)
Definition brokenState : BeaconState :=
  {| GetLatestExecutionPayloadHeader := Ok (Some sampleHeader);
     GetLatestExecutionPayload := Err "no payload"%string;
     GetSlot := Err "no slot"%string;
     GetRandaoMixAtIndex := fun _ => Err "no mix"%string |}.

(** [sampleState] with every mix at index 8 and beyond unreadable. *)
Definition mixesBeyondVectorLost : BeaconState :=
  {| GetLatestExecutionPayloadHeader := Ok (Some sampleHeader);
     GetLatestExecutionPayload := Ok (Some (samplePayload 153 1002 0));
     GetSlot := Ok 100;
     GetRandaoMixAtIndex :=
       fun i => if i <? 8 then Ok (1000 + i) else Err "out of range"%string |}.

Definition zeroVectorSpec : ChainSpec :=
  {| SlotToEpoch := fun slot => slot / 32;
     EpochsPerHistoricalVector := 0;
     MaxWithdrawalsPerPayload := 16 |}.

End Verification.

(* ===================================================================== *)
(** * package logs: the two-tier log cache (cache.go) *)
(* ===================================================================== *)

Module Logs.
Import Go.

(** Modelled from the spec: the declaration of [LogValueContainer] is not
    among the sources.  The spec describes it as one decoded log-derived
    value tagged by the execution block number it came from; the cache
    itself never looks inside a container. *)
Record LogValueContainer := {
  containerBlockNumber : uint64;
  containerLogIndex : uint64;
  containerValue : Z
}.

(** The one field of go-ethereum's [types.Log] that the cache reads,
    together with the log's position in its block. *)
Record Log := {
  BlockNumber : uint64;
  Index : uint64
}.

Record Cache := {
  finalStore : list LogValueContainer;
  lastFinalizedBlock : uint64;
  processingStore : list LogValueContainer
}.

(** The zero value of [Cache]: both slices nil, the counter 0. *)
Definition emptyCache : Cache :=
  {| finalStore := []; lastFinalizedBlock := 0; processingStore := [] |}.

(** [return log.BlockNumber > c.lastFinalizedBlock] *)
Definition ShouldProcess (c : Cache) (log : Log) : bool :=
  BlockNumber log >? lastFinalizedBlock c.

(** [c.processingStore = append(c.processingStore, container); return nil] *)
Definition Push (c : Cache) (container : LogValueContainer)
  : Cache * error string :=
  ({| finalStore := finalStore c;
      lastFinalizedBlock := lastFinalizedBlock c;
      processingStore := processingStore c ++ [container] |},
   None).

Definition LastFinalizedBlock (c : Cache) : uint64 := lastFinalizedBlock c.

(** The three assignments of [SetLastFinalizedBlock], in source order. *)
Definition SetLastFinalizedBlock (c : Cache) (blockNumber : uint64) : Cache :=
  {| finalStore := finalStore c ++ processingStore c;
     lastFinalizedBlock := blockNumber;
     processingStore := [] |}.

(** [c.processingStore = nil] *)
Definition Rollback (c : Cache) : Cache :=
  {| finalStore := finalStore c;
     lastFinalizedBlock := lastFinalizedBlock c;
     processingStore := [] |}.

(** ** Sequences of calls on one cache *)

Inductive call :=
| CallPush (container : LogValueContainer)
| CallSetLastFinalizedBlock (blockNumber : uint64)
| CallRollback.

Definition step (c : Cache) (k : call) : Cache :=
  match k with
  | CallPush x => fst (Push c x)
  | CallSetLastFinalizedBlock n => SetLastFinalizedBlock c n
  | CallRollback => Rollback c
  end.

Definition run (c : Cache) (ks : list call) : Cache := fold_left step ks c.

Definition pushAll (c : Cache) (xs : list LogValueContainer) : Cache :=
  run c (map CallPush xs).

(** ** What a call sequence says about the stores, read off the sequence
    alone (no cache involved) *)

(** A boundary is a finalize or a rollback. *)
Definition isBoundary (k : call) : bool :=
  match k with CallPush _ => false | _ => true end.

(** The containers pushed after the last boundary, scanning the
    sequence from its end. *)
Fixpoint pushedSuffix (rev_ks : list call) : list LogValueContainer :=
  match rev_ks with
  | CallPush x :: r => pushedSuffix r ++ [x]
  | _ => []
  end.

Definition pushedSinceBoundary (ks : list call) : list LogValueContainer :=
  pushedSuffix (rev ks).

(** Is the first boundary of [ks] a finalize? *)
Fixpoint nextBoundaryFinalizes (ks : list call) : bool :=
  match ks with
  | [] => false
  | CallPush _ :: r => nextBoundaryFinalizes r
  | CallSetLastFinalizedBlock _ :: _ => true
  | CallRollback :: _ => false
  end.

(** The finalized entries of a sequence: every pushed container whose
    next boundary is a finalize, in push order. *)
Fixpoint finalizedEntries (ks : list call) : list LogValueContainer :=
  match ks with
  | [] => []
  | CallPush x :: r =>
      if nextBoundaryFinalizes r then x :: finalizedEntries r
      else finalizedEntries r
  | _ :: r => finalizedEntries r
  end.

(** Every finalize of [ks] is called with a block number at least the
    one current at that call, [cur] being the current one at the start. *)
Fixpoint finalizesAscend (cur : uint64) (ks : list call) : bool :=
  match ks with
  | [] => true
  | CallSetLastFinalizedBlock n :: r => (cur <=? n) && finalizesAscend n r
  | _ :: r => finalizesAscend cur r
  end.

(** Every container pushed by a sequence, in push order. *)
Fixpoint pushedContainers (ks : list call) : list LogValueContainer :=
  match ks with
  | [] => []
  | CallPush x :: r => x :: pushedContainers r
  | _ :: r => pushedContainers r
  end.

Definition isRollback (k : call) : bool :=
  match k with CallRollback => true | _ => false end.

(** The block number of the last finalize of a sequence, if it has one. *)
Fixpoint lastFinalize (ks : list call) : option uint64 :=
  match ks with
  | [] => None
  | CallSetLastFinalizedBlock n :: r =>
      match lastFinalize r with
      | Some m => Some m
      | None => Some n
      end
  | _ :: r => lastFinalize r
  end.

(** A container for examples. *)
Definition sampleContainer (blockNumber : uint64) : LogValueContainer :=
  {| containerBlockNumber := blockNumber;
     containerLogIndex := 0;
     containerValue := 7 |}.

End Logs.

(* ===================================================================== *)
(** * package deposit: the deposit ingestion service *)
(* ===================================================================== *)

Module Deposit.
Import Go Primitives.
Local Open Scope proc_scope.

(** The one method of the [BeaconBlock] constraint that the service calls;
    [math.U64] is an unsigned 64-bit integer. *)
Record BeaconBlock := {
  GetSlot : uint64
}.

Record BlockEvent := {
  Block : BeaconBlock
}.

Section Service.
(** The type parameter [DepositT any]. *)
Variable DepositT : Type.

(** The collaborators the handler calls ([s.dc], the deposit store of
    [s.sb]) and the follow distance. *)
Record Service := {
  dc_GetDeposits : uint64 -> result string (list DepositT);
  sb_EnqueueDeposits : list DepositT -> error string;
  eth1FollowDistance : uint64
}.

(** [NewService] hardcodes the follow distance to 1. *)
Definition NewService
  (dc : uint64 -> result string (list DepositT))
  (enqueue : list DepositT -> error string) : Service :=
  {| dc_GetDeposits := dc;
     sb_EnqueueDeposits := enqueue;
     eth1FollowDistance := 1 |}.

Inductive event :=
| LoggerInfo (msg : string) (slot : uint64)
| CallGetDeposits (slot : uint64)
| CallEnqueueDeposits (deposits : list DepositT).

Definition handleDepositEvent (s : Service) (e : BlockEvent)
  : Proc unit event (error Error) (error Error) :=
  let slot := sub64 (GetSlot (Block e)) (eth1FollowDistance s) in
  emit (LoggerInfo "processing deposit logs" slot) ;;
  emit (CallGetDeposits slot) ;;
  deposits <- try (Collab DepositContract) (dc_GetDeposits s slot) Some ;;
  emit (CallEnqueueDeposits deposits) ;;
  match sb_EnqueueDeposits s deposits with
  | Some err => return_ (Some (Collab DepositStore err))
  | None => return_ None
  end.

End Service.

Arguments dc_GetDeposits {DepositT} s slot.
Arguments sb_EnqueueDeposits {DepositT} s deposits.
Arguments eth1FollowDistance {DepositT} s.
Arguments NewService {DepositT} dc enqueue.
Arguments LoggerInfo {DepositT} msg slot.
Arguments CallGetDeposits {DepositT} slot.
Arguments CallEnqueueDeposits {DepositT} deposits.
Arguments handleDepositEvent {DepositT} s e.

(** ** The service loop started by [Start]

    The goroutine selects between [ctx.Done()] and the event channel; what
    it selects, in order, is the input of the model. *)
Inductive selected :=
| CtxDone
| Received (e : BlockEvent).

Inductive serviceEvent (DepositT : Type) :=
| Subscribed
| Handling (ev : event DepositT)
| LoggerError (msg : string) (err : Error)
| Unsubscribed.
Arguments Subscribed {DepositT}.
Arguments Handling {DepositT} ev.
Arguments LoggerError {DepositT} msg err.
Arguments Unsubscribed {DepositT}.

(** The body of the goroutine: [defer sub.Unsubscribe()] and the [for]
    loop.  With no input left the goroutine is blocked in [select]. *)
Fixpoint eventLoop {DepositT} (s : Service DepositT) (inputs : list selected)
  : list (serviceEvent DepositT) :=
  match inputs with
  | [] => []
  | CtxDone :: _ => [Unsubscribed]
  | Received e :: rest =>
      let '(_, t, x) := handleDepositEvent s e tt in
      match x with
      | Panic => map Handling t ++ [Unsubscribed]
      | Next err | Return err =>
          map Handling t
            ++ match err with
               | Some err' => [LoggerError "failed to handle deposit event" err']
               | None => []
               end
            ++ eventLoop s rest
      end
  end.

(** [Start]: subscribe, launch the goroutine, return nil. *)
Definition Start {DepositT} (s : Service DepositT) (inputs : list selected)
  : list (serviceEvent DepositT) * error Error :=
  (Subscribed :: eventLoop s inputs, None).

(** *** Reading the traces *)

Definition slotsRequested {DepositT} (t : list (event DepositT)) : list uint64 :=
  flat_map (fun ev => match ev with
                      | CallGetDeposits slot => [slot]
                      | _ => []
                      end) t.

Definition batchesEnqueued {DepositT} (t : list (event DepositT))
  : list (list DepositT) :=
  flat_map (fun ev => match ev with
                      | CallEnqueueDeposits deposits => [deposits]
                      | _ => []
                      end) t.

Definition handled {DepositT} (t : list (serviceEvent DepositT))
  : list (event DepositT) :=
  flat_map (fun ev => match ev with
                      | Handling ev' => [ev']
                      | _ => []
                      end) t.

Definition isUnsubscribed {DepositT} (ev : serviceEvent DepositT) : bool :=
  match ev with Unsubscribed => true | _ => false end.

Definition isLoggerError {DepositT} (ev : serviceEvent DepositT) : bool :=
  match ev with LoggerError _ _ => true | _ => false end.

(** Does handling [e] end in an error? *)
Definition handlerFails {DepositT} (s : Service DepositT) (e : BlockEvent) : bool :=
  match resultOf (handleDepositEvent s e tt) with
  | Return (Some _) | Next (Some _) => true
  | _ => false
  end.

(** A deposit contract that fails at odd slots. *)
Definition flakyService : Service Z :=
  NewService
    (fun slot => if Z.odd slot then Err "unavailable"%string else Ok [slot])
    (fun _ => None).

(** A deposit contract that has one deposit at every slot, and a store that
    accepts everything. *)
Definition sampleService : Service Z :=
  NewService (fun slot => Ok [slot]) (fun _ => None).

Definition sampleEvent (slot : uint64) : BlockEvent :=
  {| Block := {| GetSlot := slot |} |}.

End Deposit.

(* ===================================================================== *)
(** * package blockchain: block processing and the forkchoice notifier *)
(* ===================================================================== *)

Module Blockchain.
Import Go Primitives.
Local Open Scope proc_scope.

Record BeaconBlockBodyData := {
  bodyIsNil : bool;
  GetExecutionPayload : ExecutionPayload;
  GetBlobKzgCommitments : list Z
}.
Definition BeaconBlockBody := iface BeaconBlockBodyData.

#[export] Instance BeaconBlockBody_Nillable : Nillable BeaconBlockBodyData :=
  bodyIsNil.

Record BeaconBlockData := {
  blkIsNil : bool;
  GetBody : BeaconBlockBody;
  GetSlot : Slot;
  GetParentBlockRoot : Root
}.
Definition ReadOnlyBeaconBlock := iface BeaconBlockData.

#[export] Instance ReadOnlyBeaconBlock_Nillable : Nillable BeaconBlockData :=
  blkIsNil.

(** [version.Deneb], the fork version every update is tagged with. *)
Inductive Version := Deneb.

Record ForkchoiceState := {
  HeadBlockHash : ExecutionHash;
  SafeBlockHash : ExecutionHash;
  FinalizedBlockHash : ExecutionHash
}.

Record ForkchoiceUpdateRequest := {
  State : ForkchoiceState;
  ForkVersion : Version
}.

(** Calls made to collaborators, in the order they are made.
    [CallSendPostBlockFCU] marks the entry into [sendPostBlockFCU]. *)
Inductive event :=
| CallValidatePayload
| CallNotifyNewPayload (slot : Slot) (payload : ExecutionPayload)
    (versionedHashes : list Z) (parentBlockRoot : Root)
| CallValidateBlock
| CallProcessBlobs
| CallProcessBlock
| CallInsertNode (blockHash : ExecutionHash)
| CallProcessLogsInETH1Block (blockHash : ExecutionHash)
| CallSendPostBlockFCU (payload : ExecutionPayload)
| CallNotifyForkchoiceUpdate (req : ForkchoiceUpdateRequest)
| Println (msg : string)
| LoggerError (msg : string).

Section Service.
(** Both are opaque to this package. *)
Variables AvailabilityStore BlobSidecars : Type.

(** What [s.BeaconState(ctx)] and [s.AvailabilityStore(ctx)] give. *)
Record World := {
  beaconState : BeaconState;
  availabilityStore : AvailabilityStore
}.

(** The collaborators of [Service], by the field they hang off.  The
    validators ([bv], [pv]) and the engine calls only report an error; the
    state processor ([sp]) hands back the store it worked on.  The
    forkchoice-store handle that [ValidatePayload] also receives is left
    out of [pv_ValidatePayload]. *)
Record Service := {
  bv_ValidateBlock : BeaconState -> ReadOnlyBeaconBlock -> error string;
  pv_ValidatePayload : BeaconState -> ReadOnlyBeaconBlock -> error string;
  es_NotifyNewPayload :
    Slot -> ExecutionPayload -> list Z -> Root -> bool * error string;
  es_ProcessLogsInETH1Block : ExecutionHash -> error string;
  sp_ProcessBlobs :
    AvailabilityStore -> ReadOnlyBeaconBlock -> BlobSidecars ->
    AvailabilityStore * error string;
  sp_ProcessBlock :
    BeaconState -> ReadOnlyBeaconBlock -> BeaconState * error string;
  fcs_InsertNode : ExecutionHash -> error string;
  ee_NotifyForkchoiceUpdate : ForkchoiceUpdateRequest -> error string;
  kzg_ConvertCommitmentsToVersionedHashes : list Z -> list Z
}.

Definition wrapErr (who : Collaborator) (err : error string) : error Error :=
  match err with
  | Some msg => Some (Collab who msg)
  | None => None
  end.

(** ** process.go *)

Definition ValidateExecutionPayloadOnBlk (s : Service) (w : World)
  (blk : ReadOnlyBeaconBlock)
  : Proc unit event (error Error) (error Error) :=
  b <- method blk ;;
  body <- method (GetBody b) ;;
  return_if (IsNil body) (Some ErrNilBlkBody) ;;
  payload <- method (GetExecutionPayload body) ;;
  return_if (IsNil payload) (Some ErrNilPayload) ;;
  emit CallValidatePayload ;;
  match pv_ValidatePayload s (beaconState w) blk with
  | Some err => return_ (Some (Collab PayloadValidator err))
  | None =>
      let versionedHashes :=
        kzg_ConvertCommitmentsToVersionedHashes s (GetBlobKzgCommitments body) in
      emit (CallNotifyNewPayload (GetSlot b) (GetExecutionPayload body)
              versionedHashes (GetParentBlockRoot b)) ;;
      let '(isValidPayload, err) :=
        es_NotifyNewPayload s (GetSlot b) (GetExecutionPayload body)
          versionedHashes (GetParentBlockRoot b) in
      match err with
      | Some msg => return_ (Some (Collab ExecutionService msg))
      | None =>
          if negb isValidPayload then return_ (Some (ErrorsNew "invalid payload"))
          else return_ None
      end
  end.

(** What a goroutine of the group hands to [Wait]: its events and the
    error it returned, or a panic. *)
Definition goroutine (body : Proc unit event (error Error) (error Error))
  : list event * option (error Error) :=
  let '(_, t, x) := body tt in
  (t, match x with
      | Next r | Return r => Some r
      | Panic => None
      end).

Definition ProcessBeaconBlock (s : Service) (wave1 wave2 : Schedule)
  (blk : ReadOnlyBeaconBlock) (blobs : BlobSidecars)
  : Proc World event (error Error) (error Error) :=
  fun w =>
    let avs := availabilityStore w in
    let st := beaconState w in
    (* first wave: validate payload and block in parallel *)
    let '(tPayload, rPayload) :=
      goroutine (ValidateExecutionPayloadOnBlk s w blk) in
    let tBlock := [CallValidateBlock] in
    let rBlock := wrapErr BlockValidator (bv_ValidateBlock s st blk) in
    let t1 := interleave (picks wave1) tPayload tBlock in
    match rPayload with
    | None => (w, t1, Panic)
    | Some errPayload =>
        match Wait wave1 errPayload rBlock with
        | Some err => (w, t1, Return (Some err))
        | None =>
            (* second wave: process blobs and block in parallel *)
            let '(avs', errBlobs) := sp_ProcessBlobs s avs blk blobs in
            let '(st', errBlock) := sp_ProcessBlock s (beaconState w) blk in
            let w' := {| beaconState := st'; availabilityStore := avs' |} in
            let t2 := interleave (picks wave2) [CallProcessBlobs] [CallProcessBlock] in
            match Wait wave2 (wrapErr StateProcessor errBlobs)
                    (wrapErr StateProcessor errBlock) with
            | Some err => (w', t1 ++ t2, Return (Some err))
            | None => (w', t1 ++ t2, Return None)
            end
        end
    end.

(** ** The forkchoice notifier *)

Definition sendFCU (s : Service) (st : BeaconState)
  (headEth1Hash : ExecutionHash)
  : Proc unit event (error Error) (error Error) :=
  latestExecutionPayload <-
    try (Collab StateAccessor) (GetLatestExecutionPayload st) Some ;;
  latest <- method latestExecutionPayload ;;
  let eth1BlockHash := GetBlockHash latest in
  emit (Println "LIGHT SEND FCU") ;;
  let req :=
    {| State := {| HeadBlockHash := headEth1Hash;
                   SafeBlockHash := eth1BlockHash;
                   FinalizedBlockHash := eth1BlockHash |};
       ForkVersion := Deneb |} in
  emit (CallNotifyForkchoiceUpdate req) ;;
  return_ (wrapErr EngineClient (ee_NotifyForkchoiceUpdate s req)).

Definition sendPostBlockFCU (s : Service) (st : BeaconState)
  (payload : ExecutionPayload) : Proc unit event unit unit :=
  headHash <-
    match payload with
    | Some p => (* payload != nil *)
        ret (GetBlockHash p)
    | None =>
        match GetLatestExecutionPayload st with
        | Err _ =>
            emit (LoggerError
                    "failed to get latest execution payload in postBlockProcess") ;;
            return_ tt
        | Ok latestExecutionPayload =>
            latest <- method latestExecutionPayload ;;
            ret (GetBlockHash latest)
        end
    end ;;
  err <- call (sendFCU s st headHash) tt ;;
  match err with
  | Some _ =>
      emit (LoggerError
              "failed to send forkchoice update in postBlockProcess")
  | None => ret tt
  end.

(** The body of [PostBlockProcess] after the [defer]; its frame is the
    local variable [payload]. *)
Definition postBlockBody (s : Service) (blk : ReadOnlyBeaconBlock)
  : Proc ExecutionPayload event (error Error) (error Error) :=
  b <- method blk ;;
  return_if (IsNil b) None ;;
  body <- method (GetBody b) ;;
  return_if (IsNil body) None ;;
  store (GetExecutionPayload body) ;;
  payload <- load ;;
  p <- method payload ;;
  return_if (IsNil p) None ;;
  let payloadBlockHash := GetBlockHash p in
  emit (CallInsertNode payloadBlockHash) ;;
  match fcs_InsertNode s payloadBlockHash with
  | Some err => return_ (Some (Collab ForkchoiceStore err))
  | None =>
      emit (CallProcessLogsInETH1Block payloadBlockHash) ;;
      match es_ProcessLogsInETH1Block s payloadBlockHash with
      | Some err =>
          emit (LoggerError "failed to process logs") ;;
          return_ (Some (Collab ExecutionService err))
      | None => return_ None
      end
  end.

(** The deferred closure: [s.sendPostBlockFCU(ctx, *payloadPtr)].  The
    state that [sendPostBlockFCU] works on is [s.BeaconState(ctx)]. *)
Definition deferredFCU (s : Service) (w : World) (payload : ExecutionPayload)
  : Proc unit event unit unit :=
  emit (CallSendPostBlockFCU payload) ;;
  call (sendPostBlockFCU s (beaconState w) payload) tt.

(** [PostBlockProcess], started on the zero value of [payload]. *)
Definition PostBlockProcess (s : Service) (w : World)
  (blk : ReadOnlyBeaconBlock)
  : ExecutionPayload * list event * exec (error Error) (error Error) :=
  with_defer (deferredFCU s w) (postBlockBody s blk) None.

(** ** Reading a trace *)

Definition isSendPostBlockFCU (e : event) : bool :=
  match e with CallSendPostBlockFCU _ => true | _ => false end.

Definition isWave2 (e : event) : bool :=
  match e with CallProcessBlobs | CallProcessBlock => true | _ => false end.

Definition count (p : event -> bool) (t : list event) : nat :=
  List.length (filter p t).

(** The head hashes of the forkchoice updates sent to the engine. *)
Definition headsSent (t : list event) : list ExecutionHash :=
  flat_map (fun e => match e with
                     | CallNotifyForkchoiceUpdate req => [HeadBlockHash (State req)]
                     | _ => []
                     end) t.

End Service.

Arguments beaconState {AvailabilityStore} w.
Arguments availabilityStore {AvailabilityStore} w.
Arguments bv_ValidateBlock {AvailabilityStore BlobSidecars} s st blk.
Arguments pv_ValidatePayload {AvailabilityStore BlobSidecars} s st blk.
Arguments es_NotifyNewPayload {AvailabilityStore BlobSidecars} s slot payload.
Arguments es_ProcessLogsInETH1Block {AvailabilityStore BlobSidecars} s blockHash.
Arguments sp_ProcessBlobs {AvailabilityStore BlobSidecars} s avs blk blobs.
Arguments sp_ProcessBlock {AvailabilityStore BlobSidecars} s st blk.
Arguments fcs_InsertNode {AvailabilityStore BlobSidecars} s blockHash.
Arguments ee_NotifyForkchoiceUpdate {AvailabilityStore BlobSidecars} s req.
Arguments kzg_ConvertCommitmentsToVersionedHashes
  {AvailabilityStore BlobSidecars} s commitments.
Arguments ValidateExecutionPayloadOnBlk {AvailabilityStore BlobSidecars} s w blk.
Arguments ProcessBeaconBlock {AvailabilityStore BlobSidecars} s wave1 wave2 blk blobs.
Arguments sendFCU {AvailabilityStore BlobSidecars} s st headEth1Hash.
Arguments sendPostBlockFCU {AvailabilityStore BlobSidecars} s st payload.
Arguments postBlockBody {AvailabilityStore BlobSidecars} s blk.
Arguments deferredFCU {AvailabilityStore BlobSidecars} s w payload.
Arguments PostBlockProcess {AvailabilityStore BlobSidecars} s w blk.

(** ** Values for examples *)

(** An interface that holds a nil payload pointer: [IsNil()] answers true
    and the getters give zero values. *)
Definition nilPayloadPointer : ExecutionPayloadData :=
  {| payloadIsNil := true;
     GetBlockHash := 0;
     GetParentHash := 0;
     GetPrevRandao := 0;
     GetWithdrawals := [] |}.

Definition sampleBody (payload : ExecutionPayload) : BeaconBlockBodyData :=
  {| bodyIsNil := false;
     GetExecutionPayload := payload;
     GetBlobKzgCommitments := [] |}.

Definition nilBodyPointer : BeaconBlockBodyData :=
  {| bodyIsNil := true;
     GetExecutionPayload := None;
     GetBlobKzgCommitments := [] |}.

Definition sampleBlock (body : BeaconBlockBody) : ReadOnlyBeaconBlock :=
  Some {| blkIsNil := false;
          GetBody := body;
          GetSlot := 101;
          GetParentBlockRoot := 7 |}.

Definition nilBlockPointer : ReadOnlyBeaconBlock :=
  Some {| blkIsNil := true;
          GetBody := None;
          GetSlot := 0;
          GetParentBlockRoot := 0 |}.

(** A payload that extends the latest payload of [Verification.sampleState]
    (block hash 187). *)
Definition nextPayload : ExecutionPayloadData :=
  Verification.samplePayload 187 1003 0.

(** Collaborators that all succeed, except as the four arguments say: the
    engine's answer to NotifyNewPayload, the block validator's error and
    the log processor's error.  The stores are counters of the calls that
    reached them. *)
Definition sampleService (engineValid : bool) (engineErr : error string)
  (blockErr logsErr : error string) : Service nat unit :=
  {| bv_ValidateBlock := fun _ _ => blockErr;
     pv_ValidatePayload := fun _ _ => None;
     es_NotifyNewPayload := fun _ _ _ _ => (engineValid, engineErr);
     es_ProcessLogsInETH1Block := fun _ => logsErr;
     sp_ProcessBlobs := fun avs _ _ => (S avs, None);
     sp_ProcessBlock := fun st _ => (st, None);
     fcs_InsertNode := fun _ => None;
     ee_NotifyForkchoiceUpdate := fun _ => None;
     kzg_ConvertCommitmentsToVersionedHashes := fun cs => cs |}.

Definition sampleWorld : World nat :=
  {| beaconState := Verification.sampleState; availabilityStore := O |}.

Definition inOrder : Schedule := {| picks := []; firstReturnsFirst := true |}.

(** Collaborators as in [sampleService], with a state processor whose
    ProcessBlobs fails after touching the store and whose ProcessBlock
    moves the state to slot 101. *)
Definition blobsFailService : Service nat unit :=
  {| bv_ValidateBlock := fun _ _ => None;
     pv_ValidatePayload := fun _ _ => None;
     es_NotifyNewPayload := fun _ _ _ _ => (true, None);
     es_ProcessLogsInETH1Block := fun _ => None;
     sp_ProcessBlobs := fun avs _ _ => (S avs, Some "blob missing"%string);
     sp_ProcessBlock :=
       fun st _ =>
         ({| GetLatestExecutionPayloadHeader := GetLatestExecutionPayloadHeader st;
             GetLatestExecutionPayload := GetLatestExecutionPayload st;
             Primitives.GetSlot := Ok 101;
             GetRandaoMixAtIndex := GetRandaoMixAtIndex st |}, None);
     fcs_InsertNode := fun _ => None;
     ee_NotifyForkchoiceUpdate := fun _ => None;
     kzg_ConvertCommitmentsToVersionedHashes := fun cs => cs |}.


(** *** More readings of a trace *)

Definition isNotifyNewPayload (e : event) : bool :=
  match e with CallNotifyNewPayload _ _ _ _ => true | _ => false end.

Definition isValidatePayload (e : event) : bool :=
  match e with CallValidatePayload => true | _ => false end.

Definition isValidateBlock (e : event) : bool :=
  match e with CallValidateBlock => true | _ => false end.

Definition isProcessBlobs (e : event) : bool :=
  match e with CallProcessBlobs => true | _ => false end.

Definition isProcessBlock (e : event) : bool :=
  match e with CallProcessBlock => true | _ => false end.

(** The block hashes handed to [InsertNode] and to
    [ProcessLogsInETH1Block]. *)
Definition nodesInserted (t : list event) : list ExecutionHash :=
  flat_map (fun e => match e with
                     | CallInsertNode h => [h]
                     | _ => []
                     end) t.

Definition logsProcessed (t : list event) : list ExecutionHash :=
  flat_map (fun e => match e with
                     | CallProcessLogsInETH1Block h => [h]
                     | _ => []
                     end) t.


(** Unfold the statement operators and split on everything the code
    branches on. *)
Ltac run_body :=
  unfold bind, method, return_if, try, emit, ret, return_, panic, load,
    store, call, IsNil, ExecutionPayload_Nillable, BeaconBlockBody_Nillable,
    ReadOnlyBeaconBlock_Nillable;
  repeat (cbn;
          match goal with
          | |- context [match ?x with _ => _ end] =>
              lazymatch x with
              | context [match _ with _ => _ end] => fail
              | _ => destruct x eqn:?
              end
          end);
  cbn.

End Blockchain.


(* ===================================================================== *)
(** * package engineprimitives: the SSZ codec of Withdrawal *)
(* ===================================================================== *)

(** The fastssz helpers that withdrawal.ssz.go calls.  They belong to the
    library, not to this repository: SSZ writes an integer as its bytes,
    least significant first. *)
Module Ssz.
Import Go.

Definition byte := Corelib.Init.Byte.byte.

Definition Z_of_byte (b : byte) : Z := Z.of_N (Strings.Byte.to_N b).

Definition byte_of_Z (z : Z) : byte :=
  match Strings.Byte.of_N (Z.to_N (z mod 256)) with
  | Some b => b
  | None => Corelib.Init.Byte.x00
  end.

Fixpoint le_encode (n : nat) (v : Z) : list byte :=
  match n with
  | O => []
  | S n' => byte_of_Z v :: le_encode n' (v / 256)
  end.

Fixpoint le_decode (bs : list byte) : Z :=
  match bs with
  | [] => 0
  | b :: r => Z_of_byte b + 256 * le_decode r
  end.

(** [ssz.MarshalUint64(dst, i)]: appends the eight bytes of [i]. *)
Definition MarshalUint64 (dst : list byte) (i : uint64) : list byte :=
  dst ++ le_encode 8 i.

(** [ssz.UnmarshallUint64(src)]: reads the first eight bytes; indexing a
    shorter slice panics ([None]). *)
Definition UnmarshallUint64 (src : list byte) : option uint64 :=
  if (8 <=? List.length src)%nat then Some (le_decode (firstn 8 src))
  else None.

(** [buf[lo:hi]]; out of range panics ([None]). *)
Definition slice (buf : list byte) (lo hi : nat) : option (list byte) :=
  if ((lo <=? hi) && (hi <=? List.length buf))%nat
  then Some (firstn (hi - lo) (skipn lo buf))
  else None.

(** [copy(dst, src)]: overwrites the first [min(len(dst), len(src))]
    elements of [dst]. *)
Definition copy (dst src : list byte) : list byte :=
  firstn (List.length dst) src ++ skipn (List.length src) dst.

Inductive SszError := ErrSize.

End Ssz.

Module EnginePrimitives.
Import Go Ssz.
Local Open Scope exec_scope.

(** [Withdrawal] with its address as the 20 bytes of the array. *)
Record Withdrawal := {
  Index : uint64;
  Validator : uint64;
  Address : list byte;
  Amount : uint64
}.

(** What the Go types guarantee: three unsigned 64-bit integers and a
    [[20]byte]. *)
Definition wellTyped (w : Withdrawal) : Prop :=
  is_uint64 (Index w) /\ is_uint64 (Validator w) /\
  List.length (Address w) = 20%nat /\ is_uint64 (Amount w).

Definition MarshalSSZTo (w : Withdrawal) (buf : list byte)
  : list byte * error SszError :=
  let dst := buf in
  let dst := MarshalUint64 dst (Index w) in
  let dst := MarshalUint64 dst (Validator w) in
  let dst := dst ++ Address w in
  let dst := MarshalUint64 dst (Amount w) in
  (dst, None).

Definition SizeSSZ (w : Withdrawal) : Z := 44.

Definition orPanic {R A} (x : option A) : exec R A :=
  match x with
  | Some a => Next a
  | None => Panic
  end.

(** The statements of [UnmarshalSSZ] after the size check: the four fields
    are read in source order and stored in the receiver.  (A panic would end
    the program with the receiver partly updated; the size check rules it
    out, see [UnmarshalSSZ_checks_size].) *)
Definition unmarshalFields (w : Withdrawal) (buf : list byte)
  : exec (error SszError) Withdrawal :=
  b0 <- orPanic (slice buf 0 8) ;;
  index <- orPanic (UnmarshallUint64 b0) ;;
  b1 <- orPanic (slice buf 8 16) ;;
  validator <- orPanic (UnmarshallUint64 b1) ;;
  b2 <- orPanic (slice buf 16 36) ;;
  b3 <- orPanic (slice buf 36 44) ;;
  amount <- orPanic (UnmarshallUint64 b3) ;;
  Next {| Index := index;
          Validator := validator;
          Address := copy (Address w) b2;
          Amount := amount |}.

(** [UnmarshalSSZ]: the receiver after the call and what the call did. *)
Definition UnmarshalSSZ (w : Withdrawal) (buf : list byte)
  : Withdrawal * exec (error SszError) (error SszError) :=
  let size := Z.of_nat (List.length buf) in
  if negb (size =? 44) then (w, Return (Some ErrSize))
  else
    match unmarshalFields w buf with
    | Next w' => (w', Return None)
    | Return r => (w, Return r)
    | Panic => (w, Panic)
    end.

(** The zero value, and a withdrawal for examples. *)
Definition zeroWithdrawal : Withdrawal :=
  {| Index := 0; Validator := 0;
     Address := repeat Corelib.Init.Byte.x00 20; Amount := 0 |}.

Definition sampleWithdrawal : Withdrawal :=
  {| Index := 258; Validator := 7;
     Address := repeat Corelib.Init.Byte.xab 20;
     Amount := 32000000000 |}.

End EnginePrimitives.

(* ===================================================================== *)
(** * package comet: the RPC server configuration (server.go) *)
(* ===================================================================== *)

Module Comet.

(** [int64] and [time.Duration] values; addition wraps. *)
Definition is_int64 (x : Z) : Prop := - 2 ^ 63 <= x < 2 ^ 63.
Definition wrapInt64 (x : Z) : Z := (x + 2 ^ 63) mod 2 ^ 64 - 2 ^ 63.
Definition Second : Z := 1000000000.

(** The fields of [cometCfg.DefaultConfig().RPC] that are read. *)
Record RPCConfig := {
  rpcMaxBodyBytes : Z;
  rpcMaxHeaderBytes : Z;
  TimeoutBroadcastTxCommit : Z
}.

(** [rpcserver.Config]. *)
Record Config := {
  MaxOpenConnections : Z;
  ReadTimeout : Z;
  WriteTimeout : Z;
  MaxBodyBytes : Z;
  MaxHeaderBytes : Z
}.

(** [initServerConfig]; the two [DefaultConfig()] values come from the
    libraries and are arguments here. *)
Definition initServerConfig (config : RPCConfig) (default : Config)
  (maxOpenConnections : Z) : Config :=
  let cfg :=
    {| MaxOpenConnections := maxOpenConnections;
       ReadTimeout := ReadTimeout default;
       WriteTimeout := WriteTimeout default;
       MaxBodyBytes := rpcMaxBodyBytes config;
       MaxHeaderBytes := rpcMaxHeaderBytes config |} in
  if WriteTimeout cfg <=? TimeoutBroadcastTxCommit config then
    {| MaxOpenConnections := MaxOpenConnections cfg;
       ReadTimeout := ReadTimeout cfg;
       WriteTimeout :=
         wrapInt64 (TimeoutBroadcastTxCommit config + 1 * Second);
       MaxBodyBytes := MaxBodyBytes cfg;
       MaxHeaderBytes := MaxHeaderBytes cfg |}
  else cfg.

(** Ten-second defaults on both sides. *)
Definition sampleRPC : RPCConfig :=
  {| rpcMaxBodyBytes := 1000000;
     rpcMaxHeaderBytes := 1048576;
     TimeoutBroadcastTxCommit := 10 * Second |}.

Definition sampleDefault : Config :=
  {| MaxOpenConnections := 0;
     ReadTimeout := 10 * Second;
     WriteTimeout := 10 * Second;
     MaxBodyBytes := 1000000;
     MaxHeaderBytes := 1048576 |}.

End Comet.

(* ===================================================================== *)
(** * Properties of the log cache *)
(* ===================================================================== *)

Module LogsProps.
Import Go Logs.

Lemma run_app (c : Cache) (ks1 ks2 : list call) :
  run c (ks1 ++ ks2) = run (run c ks1) ks2.
Proof. unfold run. apply fold_left_app. Qed.

Lemma run_snoc (c : Cache) (ks : list call) (k : call) :
  run c (ks ++ [k]) = step (run c ks) k.
Proof. rewrite run_app. reflexivity. Qed.

(** *** Pushing a batch *)

Lemma pushAll_stores (xs : list LogValueContainer) : forall c : Cache,
  finalStore (pushAll c xs) = finalStore c /\
  lastFinalizedBlock (pushAll c xs) = lastFinalizedBlock c /\
  processingStore (pushAll c xs) = processingStore c ++ xs.
Proof.
  induction xs as [|x xs IH]; intros c.
  - cbn. now rewrite app_nil_r.
  - change (pushAll c (x :: xs)) with (pushAll (fst (Push c x)) xs).
    destruct (IH (fst (Push c x))) as (Hf & Hl & Hp).
    rewrite Hf, Hl, Hp. cbn. now rewrite <- app_assoc.
Qed.

(** *** The sequence-side functions, one call at a time *)

Lemma pushedSuffix_app (a b : list call) :
  pushedSuffix (a ++ b) =
  if existsb isBoundary a then pushedSuffix a
  else pushedSuffix b ++ pushedSuffix a.
Proof.
  induction a as [|k a IH]; cbn.
  - now rewrite app_nil_r.
  - destruct k; cbn; try reflexivity.
    rewrite IH. destruct (existsb isBoundary a); [reflexivity|].
    now rewrite app_assoc.
Qed.

Lemma existsb_isBoundary_rev (ks : list call) :
  existsb isBoundary (rev ks) = existsb isBoundary ks.
Proof.
  induction ks as [|k ks IH]; cbn; [reflexivity|].
  rewrite existsb_app, IH. cbn. rewrite orb_false_r. apply orb_comm.
Qed.

Lemma pushedSinceBoundary_cons (k : call) (ks : list call) :
  pushedSinceBoundary (k :: ks) =
  if existsb isBoundary ks then pushedSinceBoundary ks
  else match k with
       | CallPush x => x :: pushedSinceBoundary ks
       | _ => pushedSinceBoundary ks
       end.
Proof.
  unfold pushedSinceBoundary. cbn [rev].
  rewrite pushedSuffix_app, existsb_isBoundary_rev.
  destruct (existsb isBoundary ks); [reflexivity|].
  destruct k; reflexivity.
Qed.

Lemma nextBoundaryFinalizes_boundary (ks : list call) :
  nextBoundaryFinalizes ks = true -> existsb isBoundary ks = true.
Proof.
  induction ks as [|k ks IH]; cbn; [discriminate|].
  destruct k; cbn; auto.
Qed.

(** *** The stores after a run, from any starting cache *)

Lemma run_stores (ks : list call) : forall c : Cache,
  processingStore (run c ks) =
    (if existsb isBoundary ks then [] else processingStore c)
      ++ pushedSinceBoundary ks /\
  finalStore (run c ks) =
    finalStore c
      ++ (if nextBoundaryFinalizes ks then processingStore c else [])
      ++ finalizedEntries ks.
Proof.
  induction ks as [|k ks IH]; intros c.
  - cbn. now rewrite !app_nil_r.
  - change (run c (k :: ks)) with (run (step c k) ks).
    destruct (IH (step c k)) as [Hp Hf]. rewrite Hp, Hf.
    rewrite pushedSinceBoundary_cons. clear IH Hp Hf.
    destruct k as [x | n |]; cbn [step Push fst SetLastFinalizedBlock Rollback
      finalStore processingStore existsb isBoundary orb
      nextBoundaryFinalizes finalizedEntries].
    + split.
      * destruct (existsb isBoundary ks); [reflexivity|].
        now rewrite <- app_assoc.
      * destruct (nextBoundaryFinalizes ks); [|reflexivity].
        now rewrite <- !app_assoc.
    + split.
      * now destruct (existsb isBoundary ks).
      * destruct (nextBoundaryFinalizes ks); now rewrite <- !app_assoc.
    + split.
      * now destruct (existsb isBoundary ks).
      * now destruct (nextBoundaryFinalizes ks).
Qed.

Lemma run_empty_stores (ks : list call) :
  processingStore (run emptyCache ks) = pushedSinceBoundary ks /\
  finalStore (run emptyCache ks) = finalizedEntries ks.
Proof.
  destruct (run_stores ks emptyCache) as [Hp Hf]. rewrite Hp, Hf. cbn.
  split.
  - now destruct (existsb isBoundary ks).
  - now destruct (nextBoundaryFinalizes ks).
Qed.

(** C2.  Starting from the empty cache and after any sequence [ks] of
    Push / SetLastFinalizedBlock / Rollback calls, a call
    SetLastFinalizedBlock(N) leaves in finalStore the entries finalized
    before it (those of [ks] whose next boundary is a finalize) followed by
    exactly the entries pushed since the last finalize or rollback, and it
    leaves processingStore empty. *)
Theorem finalize_commits_pending (ks : list call) (N : uint64) :
  let before := run emptyCache ks in
  let after := run emptyCache (ks ++ [CallSetLastFinalizedBlock N]) in
  finalStore after = finalStore before ++ pushedSinceBoundary ks /\
  finalStore before = finalizedEntries ks /\
  processingStore after = [].
Proof.
  cbv zeta. rewrite run_snoc.
  destruct (run_empty_stores ks) as [Hp Hf].
  cbn [step SetLastFinalizedBlock finalStore processingStore].
  rewrite Hp. auto.
Qed.

(** *** lastFinalizedBlock along a run *)

Lemma step_lastFinalizedBlock (c : Cache) (k : call) :
  lastFinalizedBlock (step c k) =
  match k with
  | CallSetLastFinalizedBlock n => n
  | _ => lastFinalizedBlock c
  end.
Proof. destruct k; reflexivity. Qed.

Lemma finalizesAscend_run (ks : list call) : forall c : Cache,
  finalizesAscend (lastFinalizedBlock c) ks = true ->
  lastFinalizedBlock c <= lastFinalizedBlock (run c ks).
Proof.
  induction ks as [|k ks IH]; intros c H.
  - cbn. lia.
  - change (run c (k :: ks)) with (run (step c k) ks).
    destruct k as [x | n |]; cbn [finalizesAscend] in H.
    + apply (IH (step c (CallPush x))). exact H.
    + apply andb_prop in H. destruct H as [Hle Hrest].
      apply Z.leb_le in Hle.
      specialize (IH (step c (CallSetLastFinalizedBlock n)) Hrest).
      cbn in IH |- *. lia.
    + apply (IH (step c CallRollback)). exact H.
Qed.

Lemma finalizesAscend_app (ks1 : list call) : forall (cur : uint64) (ks2 : list call),
  finalizesAscend cur (ks1 ++ ks2) = true ->
  forall c : Cache, lastFinalizedBlock c = cur ->
  finalizesAscend (lastFinalizedBlock (run c ks1)) ks2 = true.
Proof.
  induction ks1 as [|k ks1 IH]; intros cur ks2 H c Hc.
  - cbn. now rewrite Hc.
  - change (run c (k :: ks1)) with (run (step c k) ks1).
    destruct k as [x | n |]; cbn [app finalizesAscend] in H.
    + apply (IH cur ks2 H). now rewrite step_lastFinalizedBlock.
    + apply andb_prop in H. destruct H as [_ H].
      apply (IH n ks2 H). now rewrite step_lastFinalizedBlock.
    + apply (IH cur ks2 H). now rewrite step_lastFinalizedBlock.
Qed.

(** C3, as stated, fails: SetLastFinalizedBlock stores its argument
    unconditionally, so finalizing block 5 and then block 3 takes the value
    returned by LastFinalizedBlock from 5 down to 3. *)
Lemma LastFinalizedBlock_can_decrease :
  LastFinalizedBlock (run emptyCache [CallSetLastFinalizedBlock 5]) = 5 /\
  LastFinalizedBlock
    (run emptyCache ([CallSetLastFinalizedBlock 5] ++ [CallSetLastFinalizedBlock 3])) = 3 /\
  LastFinalizedBlock
    (run emptyCache ([CallSetLastFinalizedBlock 5] ++ [CallSetLastFinalizedBlock 3]))
  < LastFinalizedBlock (run emptyCache [CallSetLastFinalizedBlock 5]).
Proof. cbn. repeat split. Qed.

(** C3, amended.  Along every sequence of Push, SetLastFinalizedBlock and
    Rollback calls in which each SetLastFinalizedBlock is called with a block
    number at least the one current at that call, the value returned by
    LastFinalizedBlock never decreases: it is no smaller after any longer
    prefix [ks1 ++ ks2] than after the prefix [ks1]. *)
Theorem LastFinalizedBlock_monotone_when_finalizes_ascend
  (c : Cache) (ks1 ks2 : list call) :
  finalizesAscend (LastFinalizedBlock c) (ks1 ++ ks2) = true ->
  LastFinalizedBlock (run c ks1) <= LastFinalizedBlock (run c (ks1 ++ ks2)).
Proof.
  unfold LastFinalizedBlock. intros H.
  rewrite run_app. apply finalizesAscend_run.
  exact (finalizesAscend_app ks1 _ ks2 H c eq_refl).
Qed.

Lemma LastFinalizedBlock_monotone_witness :
  LastFinalizedBlock (run emptyCache [CallSetLastFinalizedBlock 3; CallRollback])
  <= LastFinalizedBlock
       (run emptyCache
          ([CallSetLastFinalizedBlock 3; CallRollback]
             ++ [CallPush (sampleContainer 4); CallSetLastFinalizedBlock 4])).
Proof.
  apply (LastFinalizedBlock_monotone_when_finalizes_ascend emptyCache
           [CallSetLastFinalizedBlock 3; CallRollback]
           [CallPush (sampleContainer 4); CallSetLastFinalizedBlock 4]).
  reflexivity.
Defined.

(** C6.  Rollback isolation: from any cache state, pushing the entries [xs]
    and then calling Rollback leaves finalStore and lastFinalizedBlock as
    they were before the pushes and empties processingStore; a
    SetLastFinalizedBlock that follows adds none of [xs] to finalStore. *)
Theorem Rollback_isolates_pushes
  (c : Cache) (xs : list LogValueContainer) (N : uint64) :
  let c' := Rollback (pushAll c xs) in
  finalStore c' = finalStore c /\
  LastFinalizedBlock c' = LastFinalizedBlock c /\
  processingStore c' = [] /\
  finalStore (SetLastFinalizedBlock c' N) = finalStore c.
Proof.
  cbv zeta. destruct (pushAll_stores xs c) as (Hf & Hl & _).
  unfold LastFinalizedBlock. cbn. rewrite Hf, Hl, app_nil_r. auto.
Qed.

(** C9.  ShouldProcess(log) is true exactly when log.BlockNumber is
    greater than lastFinalizedBlock; in particular, once the cache has been
    finalized at N (by SetLastFinalizedBlock(N)), it is false for every log
    whose block number is at most N. *)
Theorem ShouldProcess_iff_after_last_finalized (c : Cache) (log : Log) :
  (ShouldProcess c log = true <-> BlockNumber log > LastFinalizedBlock c) /\
  (forall N : uint64,
      LastFinalizedBlock c = N -> BlockNumber log <= N ->
      ShouldProcess c log = false) /\
  (forall N : uint64,
      BlockNumber log <= N ->
      ShouldProcess (SetLastFinalizedBlock c N) log = false).
Proof.
  unfold ShouldProcess, LastFinalizedBlock. repeat split.
  - intros H. apply Z.gtb_lt in H. lia.
  - intros H. apply Z.gtb_lt. lia.
  - intros N HN Hle. rewrite Z.gtb_ltb. apply Z.ltb_ge. lia.
  - intros N Hle. cbn. rewrite Z.gtb_ltb. apply Z.ltb_ge. lia.
Qed.

(** C10.  Push appends exactly the given container at the end of
    processingStore, leaves finalStore and lastFinalizedBlock unchanged and
    returns the nil error, whatever the container and the cache state; a
    container whose block number is not above lastFinalizedBlock is appended
    like any other. *)
Theorem Push_appends_and_never_fails (c : Cache) (container : LogValueContainer) :
  processingStore (fst (Push c container)) = processingStore c ++ [container] /\
  finalStore (fst (Push c container)) = finalStore c /\
  LastFinalizedBlock (fst (Push c container)) = LastFinalizedBlock c /\
  snd (Push c container) = None /\
  In container (processingStore (fst (Push c container))).
Proof.
  cbn. repeat split. apply in_or_app. right. now left.
Qed.

(** A stale container: the cache is finalized at block 100, the container
    comes from block 100, and Push stores it all the same. *)
Example Push_stale_container :
  let c := SetLastFinalizedBlock emptyCache 100 in
  ShouldProcess c {| BlockNumber := 100; Index := 0 |} = false /\
  Push c (sampleContainer 100) =
    ({| finalStore := []; lastFinalizedBlock := 100;
        processingStore := [sampleContainer 100] |}, None).
Proof. split; reflexivity. Qed.

(** *** More on call sequences *)

(** X1.  finalStore only grows: whatever calls follow, the finalStore reached
    so far stays as a prefix of every later finalStore (no call removes or
    reorders a finalized entry). *)
Theorem finalStore_is_append_only (c : Cache) (ks1 ks2 : list call) :
  exists added : list LogValueContainer,
    finalStore (run c (ks1 ++ ks2)) = finalStore (run c ks1) ++ added.
Proof.
  rewrite run_app.
  destruct (run_stores ks2 (run c ks1)) as [_ Hf]. rewrite Hf. eauto.
Qed.

(** X2.  without a Rollback nothing that was pushed is lost or duplicated:
    after any sequence of Push and SetLastFinalizedBlock calls, finalStore
    followed by processingStore is what the cache held before followed by
    the pushed containers, in push order. *)
Theorem no_rollback_keeps_every_push (c : Cache) (ks : list call) :
  existsb isRollback ks = false ->
  finalStore (run c ks) ++ processingStore (run c ks) =
  finalStore c ++ processingStore c ++ pushedContainers ks.
Proof.
  revert c. induction ks as [|k ks IH]; intros c H.
  - cbn. now rewrite app_nil_r.
  - change (run c (k :: ks)) with (run (step c k) ks).
    destruct k as [x | n |]; cbn [existsb isRollback orb] in H;
      try discriminate; rewrite (IH _ H); cbn.
    + now rewrite <- !app_assoc.
    + now rewrite <- !app_assoc.
Qed.

Lemma no_rollback_keeps_every_push_witness :
  finalStore (run emptyCache
                [CallPush (sampleContainer 1); CallSetLastFinalizedBlock 1;
                 CallPush (sampleContainer 2)])
    ++ processingStore
         (run emptyCache
            [CallPush (sampleContainer 1); CallSetLastFinalizedBlock 1;
             CallPush (sampleContainer 2)])
  = [] ++ [] ++ [sampleContainer 1; sampleContainer 2].
Proof.
  apply (no_rollback_keeps_every_push emptyCache
           [CallPush (sampleContainer 1); CallSetLastFinalizedBlock 1;
            CallPush (sampleContainer 2)]).
  reflexivity.
Defined.

Lemma stores_were_pushed (ks : list call) : forall (c : Cache) (x : LogValueContainer),
  In x (finalStore (run c ks) ++ processingStore (run c ks)) ->
  In x (finalStore c ++ processingStore c) \/ In (CallPush x) ks.
Proof.
  induction ks as [|k ks IH]; intros c x H.
  - now left.
  - change (run c (k :: ks)) with (run (step c k) ks) in H.
    destruct (IH _ _ H) as [Hc | Hks]; [|right; now right].
    destruct k as [y | n |]; cbn in Hc.
    + rewrite app_assoc in Hc. apply in_app_or in Hc.
      destruct Hc as [Hc | [<- | []]]; [now left | right; now left].
    + rewrite app_nil_r in Hc. now left.
    + rewrite app_nil_r in Hc. left. apply in_or_app. now left.
Qed.

(** X3.  the cache holds nothing that was not pushed: starting from the
    empty cache, every container found in finalStore or processingStore was
    the argument of a Push of the sequence. *)
Theorem cache_holds_only_pushed_containers
  (ks : list call) (x : LogValueContainer) :
  In x (finalStore (run emptyCache ks) ++ processingStore (run emptyCache ks)) ->
  In (CallPush x) ks.
Proof.
  intros H. destruct (stores_were_pushed ks emptyCache x H) as [[] | Hks].
  exact Hks.
Qed.

Lemma cache_holds_only_pushed_containers_witness :
  In (CallPush (sampleContainer 2))
    [CallPush (sampleContainer 1); CallRollback; CallPush (sampleContainer 2)].
Proof.
  apply (cache_holds_only_pushed_containers
           [CallPush (sampleContainer 1); CallRollback;
            CallPush (sampleContainer 2)]).
  cbn. now left.
Defined.

(** X4.  LastFinalizedBlock after a sequence of calls is the argument of the
    last SetLastFinalizedBlock in it, and the value the cache started with
    when the sequence has none; Push and Rollback never move it. *)
Theorem LastFinalizedBlock_is_last_finalize (c : Cache) (ks : list call) :
  LastFinalizedBlock (run c ks) =
  match lastFinalize ks with
  | Some n => n
  | None => LastFinalizedBlock c
  end.
Proof.
  revert c. induction ks as [|k ks IH]; intros c; [reflexivity|].
  change (run c (k :: ks)) with (run (step c k) ks). rewrite IH.
  destruct k as [x | n |]; cbn [lastFinalize];
    destruct (lastFinalize ks); reflexivity.
Qed.

End LogsProps.

(* ===================================================================== *)
(** * Properties of the payload verifier *)
(* ===================================================================== *)

Module VerificationProps.
Import Go Primitives Verification.

Lemma firstViolation_none (maxWithdrawals : uint64) (safeHash : ExecutionHash)
  (expectedMix : Bytes32) (p : ExecutionPayloadData) :
  firstViolation maxWithdrawals safeHash expectedMix p = None <->
  GetParentHash p = safeHash /\
  GetPrevRandao p = expectedMix /\
  Z.of_nat (List.length (GetWithdrawals p)) <= maxWithdrawals.
Proof.
  unfold firstViolation.
  destruct (GetParentHash p =? safeHash) eqn:Hh; cbn [negb].
  2:{ apply Z.eqb_neq in Hh. split; [discriminate | tauto]. }
  destruct (GetPrevRandao p =? expectedMix) eqn:Hr; cbn [negb].
  2:{ apply Z.eqb_neq in Hr. split; [discriminate | tauto]. }
  apply Z.eqb_eq in Hh, Hr.
  destruct (Z.of_nat (List.length (GetWithdrawals p)) <=? maxWithdrawals) eqn:Hw;
    cbn [negb].
  - apply Z.leb_le in Hw. tauto.
  - apply Z.leb_gt in Hw. split; [discriminate | lia].
Qed.

(** C4.  With the state accessors succeeding (and a non-zero
    EpochsPerHistoricalVector, so that the index is defined), VerifyPayload
    returns the error of the first rule that fails, in the order parent
    hash, previous RANDAO against the mix at index
    SlotToEpoch(slot) mod EpochsPerHistoricalVector, withdrawal count
    against MaxWithdrawalsPerPayload, each error carrying the two values
    compared; it returns nil exactly when the three rules hold. *)
Theorem VerifyPayload_first_failure_wins
  (pv : PayloadVerifier) (st : BeaconState)
  (header : ExecutionPayloadHeaderData) (p : ExecutionPayloadData)
  (slot : Slot) (mix : Bytes32) :
  GetLatestExecutionPayloadHeader st = Ok (Some header) ->
  GetSlot st = Ok slot ->
  EpochsPerHistoricalVector (cs pv) <> 0 ->
  GetRandaoMixAtIndex st
    (SlotToEpoch (cs pv) slot mod EpochsPerHistoricalVector (cs pv)) = Ok mix ->
  VerifyPayload pv st (Some p) =
    Return (firstViolation (MaxWithdrawalsPerPayload (cs pv))
              (headerBlockHash header) mix p) /\
  (VerifyPayload pv st (Some p) = Return None <->
   GetParentHash p = headerBlockHash header /\
   GetPrevRandao p = mix /\
   Z.of_nat (List.length (GetWithdrawals p)) <= MaxWithdrawalsPerPayload (cs pv)).
Proof.
  intros Hheader Hslot Hvec Hmix.
  assert (Hrun : VerifyPayload pv st (Some p) =
                 Return (firstViolation (MaxWithdrawalsPerPayload (cs pv))
                           (headerBlockHash header) mix p)).
  { unfold VerifyPayload, firstViolation, mod64.
    rewrite Hheader. cbn [exec_try exec_bind receiver].
    rewrite (Z.eqb_sym (headerBlockHash header) (GetParentHash p)).
    destruct (GetParentHash p =? headerBlockHash header);
      cbn [negb exec_return_if exec_bind]; [|reflexivity].
    rewrite Hslot. cbn [exec_try exec_bind].
    apply Z.eqb_neq in Hvec. rewrite Hvec. cbn [exec_bind].
    rewrite Hmix. cbn [exec_try exec_bind].
    destruct (GetPrevRandao p =? mix);
      cbn [negb exec_return_if exec_bind]; [|reflexivity].
    rewrite Z.gtb_ltb, Z.ltb_antisym.
    destruct (Z.of_nat (List.length (GetWithdrawals p))
              <=? MaxWithdrawalsPerPayload (cs pv));
      reflexivity. }
  split; [exact Hrun|].
  rewrite Hrun. rewrite <- firstViolation_none.
  split; [intros H; congruence | intros H; now rewrite H].
Qed.

Lemma VerifyPayload_first_failure_wins_witness :
  VerifyPayload sampleVerifier sampleState (Some (samplePayload 170 1003 17)) =
  Return (Some (ErrorsNewf fmtWithdrawals [16; 17])).
Proof.
  apply (proj1 (VerifyPayload_first_failure_wins sampleVerifier sampleState
                  sampleHeader (samplePayload 170 1003 17) 100 1003
                  eq_refl eq_refl ltac:(cbn; lia) eq_refl)).
Defined.

(** Each rule violated on its own, and all three at once. *)
Example VerifyPayload_accepts :
  VerifyPayload sampleVerifier sampleState (Some (samplePayload 170 1003 16)) =
  Return None.
Proof. reflexivity. Qed.

Example VerifyPayload_parent_mismatch :
  VerifyPayload sampleVerifier sampleState (Some (samplePayload 171 1003 16)) =
  Return (Some (ErrorsNewf fmtParent [171; 170])).
Proof. reflexivity. Qed.

Example VerifyPayload_randao_mismatch :
  VerifyPayload sampleVerifier sampleState (Some (samplePayload 170 1004 16)) =
  Return (Some (ErrorsNewf fmtRandao [1003; 1004])).
Proof. reflexivity. Qed.

Example VerifyPayload_all_rules_broken :
  VerifyPayload sampleVerifier sampleState (Some (samplePayload 171 1004 17)) =
  Return (Some (ErrorsNewf fmtParent [171; 170])).
Proof. reflexivity. Qed.

(** *** Order of the checks and reads of the state *)

(** X5.  the parent check comes before any other read of the state: when the
    payload's parent hash differs from the latest header's block hash,
    VerifyPayload returns the parent error whatever GetSlot and
    GetRandaoMixAtIndex would answer, errors included, and whatever the
    chain spec says. *)
Theorem VerifyPayload_parent_checked_first
  (pv : PayloadVerifier) (st : BeaconState)
  (header : ExecutionPayloadHeaderData) (p : ExecutionPayloadData) :
  GetLatestExecutionPayloadHeader st = Ok (Some header) ->
  GetParentHash p <> headerBlockHash header ->
  VerifyPayload pv st (Some p) =
  Return (Some (ErrorsNewf fmtParent [GetParentHash p; headerBlockHash header])).
Proof.
  intros Hheader Hne. unfold VerifyPayload. rewrite Hheader.
  cbn [exec_try exec_bind receiver].
  assert (E : (headerBlockHash header =? GetParentHash p) = false)
    by (apply Z.eqb_neq; congruence).
  rewrite E. reflexivity.
Qed.

Lemma VerifyPayload_parent_checked_first_witness :
  VerifyPayload sampleVerifier brokenState (Some (samplePayload 171 1003 0)) =
  Return (Some (ErrorsNewf fmtParent [171; 170])).
Proof.
  apply (VerifyPayload_parent_checked_first sampleVerifier brokenState
           sampleHeader (samplePayload 171 1003 0) eq_refl).
  cbn. lia.
Defined.

(** X6.  VerifyPayload reads the RANDAO mixes only at an index in
    [0, EpochsPerHistoricalVector): two states that agree on the latest
    header, on the slot and on the mixes at those indices get the same
    verdict for every payload. *)
Theorem VerifyPayload_reads_mix_within_vector
  (pv : PayloadVerifier) (st1 st2 : BeaconState) (payload : ExecutionPayload) :
  is_uint64 (EpochsPerHistoricalVector (cs pv)) ->
  GetLatestExecutionPayloadHeader st1 = GetLatestExecutionPayloadHeader st2 ->
  GetSlot st1 = GetSlot st2 ->
  (forall i : uint64,
      0 <= i < EpochsPerHistoricalVector (cs pv) ->
      GetRandaoMixAtIndex st1 i = GetRandaoMixAtIndex st2 i) ->
  VerifyPayload pv st1 payload = VerifyPayload pv st2 payload.
Proof.
  intros [Hvec _] Hheader Hslot Hmix. unfold VerifyPayload, mod64.
  rewrite Hheader, Hslot.
  destruct (GetLatestExecutionPayloadHeader st2) as [[header|]|err];
    cbn [exec_try exec_bind receiver]; try reflexivity.
  destruct payload as [p|]; cbn [exec_bind receiver]; try reflexivity.
  destruct (negb (headerBlockHash header =? GetParentHash p));
    cbn [exec_return_if exec_bind]; try reflexivity.
  destruct (GetSlot st2) as [slot|err]; cbn [exec_try exec_bind];
    try reflexivity.
  destruct (EpochsPerHistoricalVector (cs pv) =? 0) eqn:Hzero;
    cbn [exec_bind]; try reflexivity.
  apply Z.eqb_neq in Hzero.
  rewrite Hmix; [reflexivity|]. apply Z.mod_pos_bound. lia.
Qed.

Lemma VerifyPayload_reads_mix_within_vector_witness :
  VerifyPayload sampleVerifier sampleState (Some (samplePayload 170 1003 0)) =
  VerifyPayload sampleVerifier mixesBeyondVectorLost
    (Some (samplePayload 170 1003 0)).
Proof.
  apply (VerifyPayload_reads_mix_within_vector sampleVerifier sampleState
           mixesBeyondVectorLost (Some (samplePayload 170 1003 0))).
  - unfold is_uint64, two64. cbn. lia.
  - reflexivity.
  - reflexivity.
  - intros i Hi. cbn in Hi. cbn.
    destruct (i <? 8) eqn:E; [reflexivity|]. apply Z.ltb_ge in E. lia.
Defined.

(** X7.  a chain spec with EpochsPerHistoricalVector = 0 makes VerifyPayload
    panic (integer division by zero) as soon as the parent check has passed
    and the slot has been read; it returns no error for it. *)
Theorem VerifyPayload_zero_vector_panics
  (pv : PayloadVerifier) (st : BeaconState)
  (header : ExecutionPayloadHeaderData) (p : ExecutionPayloadData) (slot : Slot) :
  EpochsPerHistoricalVector (cs pv) = 0 ->
  GetLatestExecutionPayloadHeader st = Ok (Some header) ->
  GetParentHash p = headerBlockHash header ->
  GetSlot st = Ok slot ->
  VerifyPayload pv st (Some p) = Panic.
Proof.
  intros Hzero Hheader Hparent Hslot. unfold VerifyPayload, mod64.
  rewrite Hheader. cbn [exec_try exec_bind receiver].
  rewrite Hparent, Z.eqb_refl. cbn [negb exec_return_if exec_bind].
  rewrite Hslot. cbn [exec_try exec_bind].
  rewrite Hzero. reflexivity.
Qed.

Lemma VerifyPayload_zero_vector_panics_witness :
  VerifyPayload {| cs := zeroVectorSpec |} sampleState
    (Some (samplePayload 170 1003 0)) = Panic.
Proof.
  apply (VerifyPayload_zero_vector_panics {| cs := zeroVectorSpec |}
           sampleState sampleHeader (samplePayload 170 1003 0) 100);
    reflexivity.
Defined.

End VerificationProps.

(* ===================================================================== *)
(** * Properties of the deposit service *)
(* ===================================================================== *)

Module DepositProps.
Import Go Primitives Deposit.

Lemma sub64_cases (a b : Z) :
  is_uint64 a -> is_uint64 b ->
  @eq Z (sub64 a b) (if a <? b then a - b + two64 else a - b).
Proof.
  unfold is_uint64, sub64, wrap64. intros Ha Hb.
  assert (H64 : 0 < two64) by reflexivity.
  destruct (a <? b) eqn:Hlt.
  - apply Z.ltb_lt in Hlt. symmetry.
    apply Z.mod_unique with (q := -1); lia.
  - apply Z.ltb_ge in Hlt. apply Z.mod_small. lia.
Qed.

(** C7, as stated, fails: for a block at slot 0 and the follow distance 1
    of [NewService], the handler reports no error at all; it asks the
    deposit contract for the deposits of slot 2^64 - 1, the wrapped-around
    difference, and enqueues what it gets. *)
Lemma handleDepositEvent_slot_0_wraps :
  handleDepositEvent sampleService (sampleEvent 0) tt =
  (tt,
   [LoggerInfo "processing deposit logs" 18446744073709551615;
    CallGetDeposits 18446744073709551615;
    CallEnqueueDeposits [18446744073709551615]],
   Return None).
Proof. reflexivity. Qed.

(** C7, amended.  handleDepositEvent computes
    slot = event.Block().Slot - eth1FollowDistance in unsigned 64-bit
    arithmetic and has no underflow check: when the block's slot is smaller
    than eth1FollowDistance the difference wraps around to
    Slot - eth1FollowDistance + 2^64.  It always asks the deposit contract
    for the deposits of that slot, and it fails only with the error of
    GetDeposits or of EnqueueDeposits. *)
Theorem handleDepositEvent_wraps_around
  (DepositT : Type) (s : Service DepositT) (e : BlockEvent) :
  is_uint64 (GetSlot (Block e)) ->
  is_uint64 (eth1FollowDistance s) ->
  let slot :=
    if GetSlot (Block e) <? eth1FollowDistance s
    then GetSlot (Block e) - eth1FollowDistance s + two64
    else GetSlot (Block e) - eth1FollowDistance s in
  exists rest : list (event DepositT),
    handleDepositEvent s e tt =
    (tt,
     LoggerInfo "processing deposit logs" slot :: CallGetDeposits slot :: rest,
     Return
       match dc_GetDeposits s slot with
       | Err err => Some (Collab DepositContract err)
       | Ok deposits =>
           match sb_EnqueueDeposits s deposits with
           | Some err => Some (Collab DepositStore err)
           | None => None
           end
       end).
Proof.
  intros Hslot Hdist. cbv zeta.
  rewrite <- (sub64_cases _ _ Hslot Hdist).
  unfold handleDepositEvent.
  set (slot := sub64 (GetSlot (Block e)) (eth1FollowDistance s)).
  destruct (dc_GetDeposits s slot) as [deposits | err] eqn:Hget.
  - exists [CallEnqueueDeposits deposits].
    unfold bind, emit, try, ret, return_.
    destruct (sb_EnqueueDeposits s deposits); reflexivity.
  - exists []. reflexivity.
Qed.

Lemma handleDepositEvent_wraps_around_witness :
  exists rest : list (event Z),
    handleDepositEvent sampleService (sampleEvent 0) tt =
    (tt,
     LoggerInfo "processing deposit logs" (0 - 1 + two64)
       :: CallGetDeposits (0 - 1 + two64) :: rest,
     Return None).
Proof.
  apply (handleDepositEvent_wraps_around Z sampleService (sampleEvent 0)).
  - unfold is_uint64, two64. cbn. lia.
  - unfold is_uint64, two64. cbn. lia.
Defined.

(** *** What one event does, and the loop around it *)

Lemma handleDepositEvent_run
  (DepositT : Type) (s : Service DepositT) (e : BlockEvent) :
  let slot := sub64 (GetSlot (Block e)) (eth1FollowDistance s) in
  handleDepositEvent s e tt =
  (tt,
   LoggerInfo "processing deposit logs" slot :: CallGetDeposits slot
     :: match dc_GetDeposits s slot with
        | Ok deposits => [CallEnqueueDeposits deposits]
        | Err _ => []
        end,
   Return
     match dc_GetDeposits s slot with
     | Err err => Some (Collab DepositContract err)
     | Ok deposits =>
         match sb_EnqueueDeposits s deposits with
         | Some err => Some (Collab DepositStore err)
         | None => None
         end
     end).
Proof.
  cbv zeta. unfold handleDepositEvent, bind, emit, try, ret, return_.
  destruct (dc_GetDeposits s _) as [deposits | err]; [|reflexivity].
  destruct (sb_EnqueueDeposits s deposits); reflexivity.
Qed.

(** X8.  handling an event asks the deposit contract exactly once, for the
    slot computed from the block, and calls EnqueueDeposits exactly when
    that request succeeded, once, with the very deposits the contract
    returned; a failed request enqueues nothing. *)
Theorem handleDepositEvent_enqueues_what_it_fetched
  (DepositT : Type) (s : Service DepositT) (e : BlockEvent) :
  let slot := sub64 (GetSlot (Block e)) (eth1FollowDistance s) in
  let t := traceOf (handleDepositEvent s e tt) in
  slotsRequested t = [slot] /\
  batchesEnqueued t =
    match dc_GetDeposits s slot with
    | Ok deposits => [deposits]
    | Err _ => []
    end.
Proof.
  cbv zeta. rewrite handleDepositEvent_run. unfold traceOf. cbn [fst snd].
  destruct (dc_GetDeposits s _); split; reflexivity.
Qed.

(** X9.  a service built by NewService follows at distance 1: for a block
    at a slot from 1 to 2^64 - 1 it asks for the deposits of the slot just
    before. *)
Theorem NewService_reads_previous_slot
  (DepositT : Type)
  (dc : uint64 -> result string (list DepositT))
  (enqueue : list DepositT -> error string) (e : BlockEvent) :
  1 <= GetSlot (Block e) < two64 ->
  slotsRequested (traceOf (handleDepositEvent (NewService dc enqueue) e tt)) =
  [GetSlot (Block e) - 1].
Proof.
  intros Hslot. rewrite handleDepositEvent_run. unfold traceOf.
  cbn [fst snd slotsRequested flat_map eth1FollowDistance NewService].
  assert (E : sub64 (GetSlot (Block e)) 1 = GetSlot (Block e) - 1).
  { unfold sub64, wrap64. apply Z.mod_small. lia. }
  rewrite E. cbn [dc_GetDeposits NewService].
  destruct (dc (GetSlot (Block e) - 1)); reflexivity.
Qed.

Lemma NewService_reads_previous_slot_witness :
  slotsRequested (traceOf (handleDepositEvent sampleService (sampleEvent 5) tt))
  = [5 - 1].
Proof.
  apply (NewService_reads_previous_slot Z (fun slot => Ok [slot])
           (fun _ => None) (sampleEvent 5)).
  unfold two64. cbn. lia.
Defined.

Lemma handled_app (DepositT : Type) (t1 t2 : list (serviceEvent DepositT)) :
  handled (t1 ++ t2) = handled t1 ++ handled t2.
Proof. unfold handled. apply flat_map_app. Qed.

Lemma handled_map_Handling (DepositT : Type) (t : list (event DepositT)) :
  handled (map Handling t) = t.
Proof.
  unfold handled. induction t as [|ev t IH]; [reflexivity|].
  cbn. now rewrite IH.
Qed.

Lemma filter_map_Handling (DepositT : Type)
  (p : serviceEvent DepositT -> bool) (t : list (event DepositT)) :
  (forall ev, p (Handling ev) = false) ->
  filter p (map Handling t) = [].
Proof.
  intros Hp. induction t as [|ev t IH]; [reflexivity|].
  cbn. now rewrite Hp.
Qed.

(** X10.  the service loop handles every event it receives before the
    context is done, once each and in order, also after events whose
    handling failed; each failure is logged once; nothing received after
    the cancellation is handled; and Unsubscribe is called exactly once, as
    the last thing the goroutine does.  Start itself returns nil. *)
Theorem eventLoop_handles_every_event_until_done
  (DepositT : Type) (s : Service DepositT)
  (es : list BlockEvent) (rest : list selected) :
  let inputs := map Received es ++ CtxDone :: rest in
  let t := eventLoop s inputs in
  slotsRequested (handled t) =
    map (fun e => sub64 (GetSlot (Block e)) (eth1FollowDistance s)) es /\
  List.length (filter isLoggerError t) =
    List.length (filter (handlerFails s) es) /\
  (exists before : list (serviceEvent DepositT),
      t = before ++ [Unsubscribed] /\ filter isUnsubscribed before = []) /\
  Start s inputs = (Subscribed :: t, None).
Proof.
  cbv zeta. split; [|split; [|split; [|reflexivity]]].
  - induction es as [|e es IH]; [reflexivity|].
    cbn [map app eventLoop]. rewrite handleDepositEvent_run.
    rewrite !handled_app, handled_map_Handling.
    unfold slotsRequested in *. rewrite !flat_map_app, IH.
    cbn [flat_map app].
    destruct (dc_GetDeposits s _) as [deposits | err]; cbn.
    + destruct (sb_EnqueueDeposits s deposits); reflexivity.
    + reflexivity.
  - induction es as [|e es IH]; [reflexivity|].
    cbn [map app eventLoop filter]. unfold handlerFails, resultOf.
    rewrite handleDepositEvent_run. cbn [snd].
    rewrite !filter_app, !length_app,
      (filter_map_Handling DepositT isLoggerError) by reflexivity.
    rewrite IH.
    destruct (dc_GetDeposits s _) as [deposits | err]; cbn.
    + destruct (sb_EnqueueDeposits s deposits); reflexivity.
    + reflexivity.
  - induction es as [|e es IH].
    + exists []. split; reflexivity.
    + destruct IH as (before & Ht & Hnone).
      cbn [map app eventLoop]. rewrite handleDepositEvent_run. rewrite Ht.
      match goal with
      | |- exists _, ?a ++ ?b ++ before ++ [Unsubscribed] = _ /\ _ =>
          exists (a ++ b ++ before)
      end.
      split; [now rewrite <- !app_assoc|].
      rewrite !filter_app, Hnone,
        (filter_map_Handling DepositT isUnsubscribed) by reflexivity.
      destruct (dc_GetDeposits s _) as [deposits | err]; cbn.
      * destruct (sb_EnqueueDeposits s deposits); reflexivity.
      * reflexivity.
Qed.

(** The loop on a contract that fails at odd slots: blocks 3, 4 and 5 are
    handled, the failure for slot 3 is logged and the loop goes on. *)
Example eventLoop_goes_on_after_a_failure :
  eventLoop flakyService
    [Received (sampleEvent 3); Received (sampleEvent 4);
     Received (sampleEvent 5); CtxDone; Received (sampleEvent 6)] =
  [Handling (LoggerInfo "processing deposit logs" 2);
   Handling (CallGetDeposits 2);
   Handling (CallEnqueueDeposits [2]);
   Handling (LoggerInfo "processing deposit logs" 3);
   Handling (CallGetDeposits 3);
   LoggerError "failed to handle deposit event"
     (Collab DepositContract "unavailable");
   Handling (LoggerInfo "processing deposit logs" 4);
   Handling (CallGetDeposits 4);
   Handling (CallEnqueueDeposits [4]);
   Unsubscribed].
Proof. reflexivity. Qed.

End DepositProps.

(* ===================================================================== *)
(** * Properties of the RPC server configuration *)
(* ===================================================================== *)

Module CometProps.
Import Comet.

(** X26.  the configuration initServerConfig returns has a write timeout
    strictly above the broadcast-commit timeout and never below the
    library default (the commit timeout plus one second has to fit in a
    Duration); it takes the connection limit from its argument, the body
    and header limits from the RPC configuration, and leaves the read
    timeout at its default. *)
Theorem initServerConfig_write_timeout_covers_commit
  (config : RPCConfig) (default : Config) (maxOpenConnections : Z) :
  is_int64 (TimeoutBroadcastTxCommit config) ->
  is_int64 (TimeoutBroadcastTxCommit config + Second) ->
  let cfg := initServerConfig config default maxOpenConnections in
  TimeoutBroadcastTxCommit config < WriteTimeout cfg /\
  WriteTimeout default <= WriteTimeout cfg /\
  MaxOpenConnections cfg = maxOpenConnections /\
  MaxBodyBytes cfg = rpcMaxBodyBytes config /\
  MaxHeaderBytes cfg = rpcMaxHeaderBytes config /\
  ReadTimeout cfg = ReadTimeout default.
Proof.
  unfold is_int64. intros Hcommit Hsum. cbv zeta. unfold initServerConfig.
  cbn [WriteTimeout MaxOpenConnections ReadTimeout MaxBodyBytes MaxHeaderBytes].
  assert (Hwrap : wrapInt64 (TimeoutBroadcastTxCommit config + 1 * Second)
                  = TimeoutBroadcastTxCommit config + Second).
  { unfold wrapInt64. rewrite Z.mul_1_l. rewrite Z.mod_small; lia. }
  assert (0 < Second) by reflexivity.
  destruct (WriteTimeout default <=? TimeoutBroadcastTxCommit config) eqn:E;
    cbn [WriteTimeout MaxOpenConnections ReadTimeout MaxBodyBytes
           MaxHeaderBytes].
  - apply Z.leb_le in E. rewrite Hwrap. repeat split; lia.
  - apply Z.leb_gt in E. repeat split; lia.
Qed.

Lemma initServerConfig_write_timeout_covers_commit_witness :
  TimeoutBroadcastTxCommit sampleRPC
  < WriteTimeout (initServerConfig sampleRPC sampleDefault 900).
Proof.
  apply (initServerConfig_write_timeout_covers_commit sampleRPC sampleDefault 900).
  - unfold is_int64, Second. cbn. lia.
  - unfold is_int64, Second. cbn. lia.
Defined.

End CometProps.

(* ===================================================================== *)
(** * Properties of block processing *)
(* ===================================================================== *)

Module BlockchainProps.
Import Go Primitives Blockchain.

Section Service.
Context {AvailabilityStore BlobSidecars : Type}.
Implicit Types (s : Service AvailabilityStore BlobSidecars)
  (w : World AvailabilityStore) (blk : ReadOnlyBeaconBlock)
  (t : list event).

Lemma count_app (p : event -> bool) t1 t2 :
  count p (t1 ++ t2) = (count p t1 + count p t2)%nat.
Proof. unfold count. now rewrite filter_app, length_app. Qed.

Lemma count_interleave (p : event -> bool) (picks : list bool) :
  forall t1 t2,
    count p (interleave picks t1 t2) = (count p t1 + count p t2)%nat.
Proof.
  induction picks as [|pick picks IH]; intros t1 t2; cbn.
  - apply count_app.
  - destruct pick.
    + destruct t1 as [|e t1]; [reflexivity|].
      unfold count in *. cbn. specialize (IH t1 t2).
      destruct (p e); cbn; lia.
    + destruct t2 as [|e t2]; [unfold count; cbn; lia|].
      unfold count in *. cbn. specialize (IH t1 t2).
      destruct (p e); cbn; lia.
Qed.

Lemma ValidateExecutionPayloadOnBlk_no_wave2 s w blk :
  count isWave2 (traceOf (ValidateExecutionPayloadOnBlk s w blk tt)) = O.
Proof.
  unfold ValidateExecutionPayloadOnBlk, traceOf, count. run_body; reflexivity.
Qed.

(** *** ValidateExecutionPayloadOnBlk *)

(** C8.  For a block whose body answers IsNil, the function returns
    ErrNilBlkBody; for a body whose execution payload answers IsNil, it
    returns ErrNilPayload; in both cases no collaborator is called.
    Otherwise, once ValidatePayload has succeeded, it returns the
    "invalid payload" error exactly when NotifyNewPayload answers
    (false, nil); when NotifyNewPayload answers with an error, that error
    itself is returned, whatever the validity flag; and (true, nil) gives
    nil. *)
Theorem ValidateExecutionPayloadOnBlk_error_classes
  s w (b : BeaconBlockData) (body : BeaconBlockBodyData) :
  GetBody b = Some body ->
  let run := ValidateExecutionPayloadOnBlk s w (Some b) tt in
  (IsNil body = true -> run = (tt, [], Return (Some ErrNilBlkBody))) /\
  (forall p : ExecutionPayloadData,
      IsNil body = false -> GetExecutionPayload body = Some p ->
      (IsNil p = true -> run = (tt, [], Return (Some ErrNilPayload))) /\
      (IsNil p = false ->
       pv_ValidatePayload s (beaconState w) (Some b) = None ->
       let answer :=
         es_NotifyNewPayload s (GetSlot b) (Some p)
           (kzg_ConvertCommitmentsToVersionedHashes s (GetBlobKzgCommitments body))
           (GetParentBlockRoot b) in
       (resultOf run = Return (Some (ErrorsNew "invalid payload")) <->
        answer = (false, None)) /\
       (forall msg : string,
           snd answer = Some msg ->
           resultOf run = Return (Some (Collab ExecutionService msg))) /\
       (answer = (true, None) -> resultOf run = Return None))).
Proof.
  intros Hbody. cbv zeta. unfold ValidateExecutionPayloadOnBlk, resultOf.
  unfold IsNil, BeaconBlockBody_Nillable, ExecutionPayload_Nillable.
  split.
  - intros Hnil.
    unfold bind, method, return_if, ret, return_. cbn.
    rewrite Hbody. cbn. rewrite Hnil. reflexivity.
  - intros p Hnil Hpayload.
    unfold bind, method, return_if, ret, return_, emit. cbn.
    rewrite Hbody. cbn. rewrite Hnil. cbn. rewrite Hpayload. cbn.
    split.
    + intros Hp. rewrite Hp. reflexivity.
    + intros Hp Hpv. rewrite Hp. cbn. rewrite Hpv.
      destruct (es_NotifyNewPayload s (GetSlot b) (Some p)
                  (kzg_ConvertCommitmentsToVersionedHashes s
                     (GetBlobKzgCommitments body))
                  (GetParentBlockRoot b)) as [valid [msg|]];
        [|destruct valid]; cbn.
      * repeat split; congruence.
      * repeat split; congruence.
      * repeat split; congruence.
Qed.

(** *** ProcessBeaconBlock *)

(** C5.  If a first-wave validation fails (the payload validation does
    not return nil, or the block validation returns an error), ProcessBlobs
    and ProcessBlock are not called, the beacon state and the availability
    store are what they were, and the error returned is the first-wave error
    that Wait kept: the payload validation's or the block validation's.
    ProcessBeaconBlock returns nil exactly when both validations and both
    second-wave calls return nil. *)
Theorem ProcessBeaconBlock_short_circuits
  s (wave1 wave2 : Schedule) blk (blobs : BlobSidecars) w :
  let run := ProcessBeaconBlock s wave1 wave2 blk blobs w in
  let payloadCheck :=
    snd (goroutine (ValidateExecutionPayloadOnBlk s w blk)) in
  let blockCheck :=
    wrapErr BlockValidator (bv_ValidateBlock s (beaconState w) blk) in
  (payloadCheck <> Some None \/ blockCheck <> None ->
   count isWave2 (traceOf run) = O /\
   frameOf run = w /\
   forall errPayload : error Error,
     payloadCheck = Some errPayload ->
     exists err : Error,
       resultOf run = Return (Some err) /\
       Wait wave1 errPayload blockCheck = Some err /\
       (errPayload = Some err \/ blockCheck = Some err)) /\
  (resultOf run = Return None <->
   payloadCheck = Some None /\
   blockCheck = None /\
   snd (sp_ProcessBlobs s (availabilityStore w) blk blobs) = None /\
   snd (sp_ProcessBlock s (beaconState w) blk) = None).
Proof.
  cbv zeta. unfold ProcessBeaconBlock, frameOf, traceOf, resultOf.
  pose proof (ValidateExecutionPayloadOnBlk_no_wave2 s w blk) as Hquiet.
  unfold traceOf in Hquiet. unfold goroutine in *.
  destruct (ValidateExecutionPayloadOnBlk s w blk tt) as [[u tPayload] x].
  cbn [fst snd] in *.
  set (blockCheck := wrapErr BlockValidator (bv_ValidateBlock s (beaconState w) blk)).
  assert (Ht1 : count isWave2 (interleave (picks wave1) tPayload [CallValidateBlock]) = O).
  { rewrite count_interleave, Hquiet. reflexivity. }
  destruct (sp_ProcessBlobs s (availabilityStore w) blk blobs) as [avs' errBlobs].
  destruct (sp_ProcessBlock s (beaconState w) blk) as [st' errBlock].
  cbn [fst snd].
  assert (Hwait : forall (sch : Schedule) (ea eb : error Error),
             Wait sch ea eb = None <-> ea = None /\ eb = None).
  { intros sch ea eb. unfold Wait.
    destruct (firstReturnsFirst sch), ea, eb; split;
      try congruence; try tauto; intros [? ?]; congruence. }
  assert (Hpick : forall (sch : Schedule) (ea eb : error Error) (err : Error),
             Wait sch ea eb = Some err -> ea = Some err \/ eb = Some err).
  { intros sch ea eb err. unfold Wait.
    destruct (firstReturnsFirst sch), ea, eb; intros H; auto; discriminate. }
  assert (Hx : forall r : error Error,
             match x with
             | Next r' | Return r' => Some r'
             | Panic => None
             end = Some r ->
             x = Next r \/ x = Return r).
  { intros r. destruct x; intros [= ->]; auto. }
  destruct (match x with
            | Next r | Return r => Some r
            | Panic => None
            end) as [errPayload|] eqn:Hpayload.
  - destruct (Wait wave1 errPayload blockCheck) as [err|] eqn:Hw1; cbn [fst snd].
    + split.
      * intros _. repeat split; auto.
        intros errPayload' [= <-]. exists err. repeat split; auto.
        eapply Hpick; eauto.
      * split; [discriminate|].
        intros (Hp & Hb & _). injection Hp as ->. rewrite Hb in Hw1.
        rewrite (proj2 (Hwait wave1 None None) (conj eq_refl eq_refl)) in Hw1.
        discriminate.
    + apply Hwait in Hw1. destruct Hw1 as [-> Hb]. split.
      * intros [H | H]; [now contradict H | now contradict H].
      * destruct (Wait wave2 (wrapErr StateProcessor errBlobs)
                    (wrapErr StateProcessor errBlock)) as [err|] eqn:Hw2;
          cbn [fst snd].
        -- split; [discriminate|].
           intros (_ & _ & -> & ->). cbn in Hw2.
           destruct (firstReturnsFirst wave2) eqn:Hf;
             unfold Wait in Hw2; rewrite Hf in Hw2; discriminate.
        -- apply Hwait in Hw2. destruct Hw2 as [H1 H2].
           split; [|reflexivity]. intros _. repeat split; auto.
           ++ destruct errBlobs; [discriminate | reflexivity].
           ++ destruct errBlock; [discriminate | reflexivity].
  - cbn [fst snd]. split.
    + intros _. repeat split; auto. discriminate.
    + split; [discriminate | intros [H _]; discriminate].
Qed.

(** *** PostBlockProcess and the deferred forkchoice update *)

Lemma sendFCU_no_marker s (st : BeaconState) (head : ExecutionHash) :
  count isSendPostBlockFCU (traceOf (sendFCU s st head tt)) = O.
Proof. unfold sendFCU, traceOf, count, wrapErr. run_body; reflexivity. Qed.

Lemma sendPostBlockFCU_no_marker s (st : BeaconState) (payload : ExecutionPayload) :
  count isSendPostBlockFCU (traceOf (sendPostBlockFCU s st payload tt)) = O.
Proof.
  unfold sendPostBlockFCU, traceOf.
  assert (H : forall head, count isSendPostBlockFCU
                             (snd (fst (sendFCU s st head tt))) = O)
    by apply sendFCU_no_marker.
  unfold bind, call, method, ret, return_, emit, panic.
  destruct payload as [p|].
  - specialize (H (GetBlockHash p)).
    destruct (sendFCU s st (GetBlockHash p) tt) as [[u t] x]. cbn in *.
    destruct x as [r|r|]; cbn; try destruct r; cbn;
      rewrite ?app_nil_r, ?filter_app, ?length_app, ?H; reflexivity.
  - destruct (GetLatestExecutionPayload st) as [[latest|]|err]; cbn;
      try reflexivity.
    specialize (H (GetBlockHash latest)).
    destruct (sendFCU s st (GetBlockHash latest) tt) as [[u t] x]. cbn in *.
    destruct x as [r|r|]; cbn; try destruct r; cbn;
      rewrite ?app_nil_r, ?filter_app, ?length_app, ?H; reflexivity.
Qed.

Lemma postBlockBody_no_marker s blk :
  count isSendPostBlockFCU (traceOf (postBlockBody s blk None)) = O.
Proof. unfold postBlockBody, traceOf, count. run_body; reflexivity. Qed.

(** X15.  On every exit path of PostBlockProcess, a panic included, the trace
    is the body's trace, then the one entry into sendPostBlockFCU, then what
    sendPostBlockFCU itself does; it is entered with the value the variable
    [payload] holds when the body stops. *)
Lemma PostBlockProcess_fires_FCU_once_at_the_end s w blk :
  let body := postBlockBody s blk None in
  let payload := frameOf body in
  let fcu := sendPostBlockFCU s (beaconState w) payload tt in
  traceOf (PostBlockProcess s w blk) =
    traceOf body ++ CallSendPostBlockFCU payload :: traceOf fcu /\
  count isSendPostBlockFCU (traceOf (PostBlockProcess s w blk)) = 1%nat /\
  (resultOf fcu <> Panic ->
   resultOf (PostBlockProcess s w blk) = resultOf body).
Proof.
  cbv zeta.
  pose proof (postBlockBody_no_marker s blk) as Hbody.
  unfold PostBlockProcess, with_defer, deferredFCU.
  destruct (postBlockBody s blk None) as [[payload tBody] x].
  pose proof (sendPostBlockFCU_no_marker s (beaconState w) payload) as Hfcu.
  unfold bind, emit, call, frameOf, traceOf, resultOf in *. cbn [fst snd] in *.
  destruct (sendPostBlockFCU s (beaconState w) payload tt) as [[u tFCU] y].
  cbn [fst snd app] in *.
  assert (Hcount : count isSendPostBlockFCU
                     (tBody ++ CallSendPostBlockFCU payload :: tFCU) = 1%nat).
  { rewrite count_app, Hbody. unfold count in *. cbn. now rewrite Hfcu. }
  split; [|split].
  - destruct y; reflexivity.
  - destruct y; cbn; exact Hcount.
  - intros Hy. destruct y; cbn; try reflexivity. now contradict Hy.
Qed.

(** X20.  With a nil block or a nil body the variable [payload] is still the nil
    interface when the deferred call runs, and the head of the update is the
    block hash of the state's latest execution payload. *)
Lemma PostBlockProcess_nil_body_falls_back
  s w (b : BeaconBlockData) (latest : ExecutionPayloadData) :
  IsNil b = true \/
  (IsNil b = false /\ exists body, GetBody b = Some body /\ IsNil body = true) ->
  GetLatestExecutionPayload (beaconState w) = Ok (Some latest) ->
  frameOf (PostBlockProcess s w (Some b)) = None /\
  resultOf (PostBlockProcess s w (Some b)) = Return None /\
  headsSent (traceOf (PostBlockProcess s w (Some b))) = [GetBlockHash latest].
Proof.
  intros Hnil Hlatest.
  unfold PostBlockProcess, with_defer, deferredFCU, postBlockBody,
    sendPostBlockFCU, sendFCU, frameOf, traceOf, resultOf, wrapErr.
  unfold IsNil, ReadOnlyBeaconBlock_Nillable, BeaconBlockBody_Nillable in *.
  unfold bind, method, return_if, try, emit, ret, return_, panic, load,
    store, call.
  destruct Hnil as [Hb | (Hb & body & Hbody & Hnil)]; cbn; rewrite Hb; cbn.
  - rewrite Hlatest. cbn.
    destruct (ee_NotifyForkchoiceUpdate s _); cbn; auto.
  - rewrite Hbody. cbn. rewrite Hnil. cbn. rewrite Hlatest. cbn.
    destruct (ee_NotifyForkchoiceUpdate s _); cbn; auto.
Qed.


(** *** More on the two waves *)

Lemma ValidateExecutionPayloadOnBlk_no_block_validation s w blk :
  count isValidateBlock (traceOf (ValidateExecutionPayloadOnBlk s w blk tt)) = O.
Proof.
  unfold ValidateExecutionPayloadOnBlk, traceOf, count. run_body; reflexivity.
Qed.

(** X11.  the payload validation reaches the execution engine at most once,
    and only for a block whose body and payload are present and whose
    payload ValidatePayload has accepted: a nil body, a nil payload or a
    payload the validator rejects never reaches NotifyNewPayload. *)
Theorem ValidateExecutionPayloadOnBlk_engine_only_after_validation s w blk :
  let t := traceOf (ValidateExecutionPayloadOnBlk s w blk tt) in
  (count isNotifyNewPayload t <= 1)%nat /\
  (count isNotifyNewPayload t <= count isValidatePayload t)%nat /\
  (count isNotifyNewPayload t = 1%nat ->
   exists (b : BeaconBlockData) (body : BeaconBlockBodyData)
          (p : ExecutionPayloadData),
     blk = Some b /\
     GetBody b = Some body /\ IsNil body = false /\
     GetExecutionPayload body = Some p /\ IsNil p = false /\
     pv_ValidatePayload s (beaconState w) blk = None).
Proof.
  cbv zeta.
  unfold ValidateExecutionPayloadOnBlk, traceOf, count.
  run_body; (split; [lia | split; [lia |]]);
    intros Hone; try discriminate Hone;
    do 3 eexists; repeat split; eauto.
Qed.

(** X12.  every run of ProcessBeaconBlock calls the block validator exactly
    once, whatever the payload validation does and in whatever order the
    two goroutines run: a failing (or panicking) payload validation does not
    keep ValidateBlock from being called. *)
Theorem ProcessBeaconBlock_validates_block_once
  s (wave1 wave2 : Schedule) blk (blobs : BlobSidecars) w :
  count isValidateBlock
    (traceOf (ProcessBeaconBlock s wave1 wave2 blk blobs w)) = 1%nat.
Proof.
  unfold ProcessBeaconBlock, traceOf.
  pose proof (ValidateExecutionPayloadOnBlk_no_block_validation s w blk) as Hquiet.
  unfold traceOf in Hquiet. unfold goroutine.
  destruct (ValidateExecutionPayloadOnBlk s w blk tt) as [[u tPayload] x].
  cbn [fst snd] in *.
  assert (H1 : count isValidateBlock
                 (interleave (picks wave1) tPayload [CallValidateBlock]) = 1%nat).
  { rewrite count_interleave, Hquiet. reflexivity. }
  assert (H2 : count isValidateBlock
                 (interleave (picks wave2) [CallProcessBlobs] [CallProcessBlock])
               = O).
  { rewrite count_interleave. reflexivity. }
  destruct (sp_ProcessBlobs s (availabilityStore w) blk blobs) as [avs' errBlobs].
  destruct (sp_ProcessBlock s (beaconState w) blk) as [st' errBlock].
  destruct (match x with
            | Next r | Return r => Some r
            | Panic => None
            end) as [errPayload|]; cbn [fst snd]; [|exact H1].
  destruct (Wait wave1 errPayload _); cbn [fst snd]; [exact H1|].
  destruct (Wait wave2 _ _); cbn [fst snd];
    rewrite count_app, H1, H2; reflexivity.
Qed.

(** X13.  once both validations have returned nil, ProcessBlobs and
    ProcessBlock are both called, once each, and neither is held back or
    undone by the other's failure: the availability store and the beacon
    state are the ones the two calls handed back, also when the call
    returns an error; the error is the one Wait kept. *)
Theorem ProcessBeaconBlock_second_wave_runs_both
  s (wave1 wave2 : Schedule) blk (blobs : BlobSidecars) w :
  snd (goroutine (ValidateExecutionPayloadOnBlk s w blk)) = Some None ->
  bv_ValidateBlock s (beaconState w) blk = None ->
  let run := ProcessBeaconBlock s wave1 wave2 blk blobs w in
  let blobsRun := sp_ProcessBlobs s (availabilityStore w) blk blobs in
  let blockRun := sp_ProcessBlock s (beaconState w) blk in
  count isProcessBlobs (traceOf run) = 1%nat /\
  count isProcessBlock (traceOf run) = 1%nat /\
  frameOf run =
    {| beaconState := fst blockRun; availabilityStore := fst blobsRun |} /\
  resultOf run =
    Return (Wait wave2 (wrapErr StateProcessor (snd blobsRun))
              (wrapErr StateProcessor (snd blockRun))).
Proof.
  intros Hpayload Hblock. cbv zeta.
  unfold ProcessBeaconBlock, frameOf, traceOf, resultOf.
  assert (Hq : forall p, (forall e, isWave2 e = false -> p e = false) ->
               count p (traceOf (ValidateExecutionPayloadOnBlk s w blk tt)) = O).
  { intros p Hp.
    pose proof (ValidateExecutionPayloadOnBlk_no_wave2 s w blk) as H0.
    unfold count in *.
    induction (traceOf (ValidateExecutionPayloadOnBlk s w blk tt)) as [|e t IH];
      [reflexivity|].
    cbn in *. destruct (isWave2 e) eqn:E; [discriminate|].
    rewrite (Hp e E). apply IH. exact H0. }
  pose proof (Hq isProcessBlobs) as Hb. pose proof (Hq isProcessBlock) as Hk.
  unfold traceOf in Hb, Hk. unfold goroutine in *.
  destruct (ValidateExecutionPayloadOnBlk s w blk tt) as [[u tPayload] x].
  cbn [fst snd] in *. rewrite Hpayload, Hblock. cbn [wrapErr].
  assert (Hw : Wait wave1 None (@None Error) = None)
    by (unfold Wait; destruct (firstReturnsFirst wave1); reflexivity).
  rewrite Hw.
  destruct (sp_ProcessBlobs s (availabilityStore w) blk blobs) as [avs' errBlobs].
  destruct (sp_ProcessBlock s (beaconState w) blk) as [st' errBlock].
  cbn [fst snd].
  assert (C1 : count isProcessBlobs
                 (interleave (picks wave1) tPayload [CallValidateBlock]
                  ++ interleave (picks wave2) [CallProcessBlobs] [CallProcessBlock])
               = 1%nat).
  { rewrite count_app, !count_interleave, Hb.
    - reflexivity.
    - intros e. destruct e; cbn; congruence. }
  assert (C2 : count isProcessBlock
                 (interleave (picks wave1) tPayload [CallValidateBlock]
                  ++ interleave (picks wave2) [CallProcessBlobs] [CallProcessBlock])
               = 1%nat).
  { rewrite count_app, !count_interleave, Hk.
    - reflexivity.
    - intros e. destruct e; cbn; congruence. }
  destruct (Wait wave2 (wrapErr StateProcessor errBlobs)
              (wrapErr StateProcessor errBlock)); cbn [fst snd]; auto.
Qed.

Lemma interleave_all (p : event -> bool) (picks : list bool) :
  forall t1 t2,
    forallb p t1 = true -> forallb p t2 = true ->
    forallb p (interleave picks t1 t2) = true.
Proof.
  induction picks as [|pick picks IH]; intros t1 t2 H1 H2; cbn.
  - rewrite forallb_app, H1, H2. reflexivity.
  - destruct pick.
    + destruct t1 as [|e t1]; [exact H2|].
      cbn in *. apply andb_prop in H1. destruct H1 as [-> H1]. cbn.
      now apply IH.
    + destruct t2 as [|e t2]; [exact H1|].
      cbn in *. apply andb_prop in H2. destruct H2 as [-> H2]. cbn.
      now apply IH.
Qed.

(** X14.  the second wave never overtakes the first: in every run and under
    every schedule, the trace is the calls of the two validations followed
    by nothing but ProcessBlobs and ProcessBlock calls. *)
Theorem ProcessBeaconBlock_waves_in_order
  s (wave1 wave2 : Schedule) blk (blobs : BlobSidecars) w :
  exists t1 t2 : list event,
    traceOf (ProcessBeaconBlock s wave1 wave2 blk blobs w) = t1 ++ t2 /\
    count isWave2 t1 = O /\
    forallb isWave2 t2 = true.
Proof.
  unfold ProcessBeaconBlock, traceOf.
  pose proof (ValidateExecutionPayloadOnBlk_no_wave2 s w blk) as Hquiet.
  unfold traceOf in Hquiet. unfold goroutine.
  destruct (ValidateExecutionPayloadOnBlk s w blk tt) as [[u tPayload] x].
  cbn [fst snd] in *.
  assert (H1 : count isWave2
                 (interleave (picks wave1) tPayload [CallValidateBlock]) = O).
  { rewrite count_interleave, Hquiet. reflexivity. }
  assert (H2 : forallb isWave2
                 (interleave (picks wave2) [CallProcessBlobs] [CallProcessBlock])
               = true)
    by (apply interleave_all; reflexivity).
  destruct (sp_ProcessBlobs s (availabilityStore w) blk blobs) as [avs' errBlobs].
  destruct (sp_ProcessBlock s (beaconState w) blk) as [st' errBlock].
  destruct (match x with
            | Next r | Return r => Some r
            | Panic => None
            end) as [errPayload|]; cbn [fst snd].
  - destruct (Wait wave1 errPayload _); cbn [fst snd].
    + exists (interleave (picks wave1) tPayload [CallValidateBlock]), [].
      rewrite app_nil_r. auto.
    + destruct (Wait wave2 _ _); cbn [fst snd]; eauto.
  - exists (interleave (picks wave1) tPayload [CallValidateBlock]), [].
    rewrite app_nil_r. auto.
Qed.

(** *** More on PostBlockProcess *)

Lemma PostBlockProcess_parts s w blk :
  frameOf (PostBlockProcess s w blk) = frameOf (postBlockBody s blk None) /\
  traceOf (PostBlockProcess s w blk) =
    traceOf (postBlockBody s blk None)
      ++ CallSendPostBlockFCU (frameOf (postBlockBody s blk None))
      :: traceOf (sendPostBlockFCU s (beaconState w)
                    (frameOf (postBlockBody s blk None)) tt).
Proof.
  unfold PostBlockProcess, with_defer, deferredFCU.
  destruct (postBlockBody s blk None) as [[payload tBody] x].
  unfold bind, emit, call, frameOf, traceOf. cbn [fst snd].
  destruct (sendPostBlockFCU s (beaconState w) payload tt) as [[u tFCU] y].
  cbn [fst snd app]. split; [reflexivity|]. destruct y; reflexivity.
Qed.


Lemma nodesInserted_app (t1 t2 : list event) :
  nodesInserted (t1 ++ t2) = nodesInserted t1 ++ nodesInserted t2.
Proof. unfold nodesInserted. apply flat_map_app. Qed.

Lemma logsProcessed_app (t1 t2 : list event) :
  logsProcessed (t1 ++ t2) = logsProcessed t1 ++ logsProcessed t2.
Proof. unfold logsProcessed. apply flat_map_app. Qed.



Lemma sendPostBlockFCU_leaves_stores_alone s (st : BeaconState)
  (payload : ExecutionPayload) :
  nodesInserted (traceOf (sendPostBlockFCU s st payload tt)) = [] /\
  logsProcessed (traceOf (sendPostBlockFCU s st payload tt)) = [].
Proof.
  unfold sendPostBlockFCU, sendFCU, traceOf, nodesInserted, logsProcessed,
    wrapErr.
  run_body; split; reflexivity.
Qed.




(** X18.  PostBlockProcess touches the forkchoice store and the logs only for
    a block with a non-nil payload.  Either neither InsertNode nor
    ProcessLogsInETH1Block is called, or the block, its body and its
    payload are all non-nil, InsertNode is called once with the payload's
    block hash, and ProcessLogsInETH1Block is called, once and with the
    same hash, exactly when InsertNode returned nil. *)
Theorem PostBlockProcess_stores_only_for_a_payload s w blk :
  let t := traceOf (PostBlockProcess s w blk) in
  (nodesInserted t = [] /\ logsProcessed t = []) \/
  (exists (b : BeaconBlockData) (body : BeaconBlockBodyData)
          (p : ExecutionPayloadData),
      blk = Some b /\ IsNil b = false /\
      GetBody b = Some body /\ IsNil body = false /\
      GetExecutionPayload body = Some p /\ IsNil p = false /\
      nodesInserted t = [GetBlockHash p] /\
      logsProcessed t =
        match fcs_InsertNode s (GetBlockHash p) with
        | None => [GetBlockHash p]
        | Some _ => []
        end).
Proof.
  cbv zeta. destruct (PostBlockProcess_parts s w blk) as [_ ->].
  destruct (sendPostBlockFCU_leaves_stores_alone s (beaconState w)
              (frameOf (postBlockBody s blk None))) as [Hn Hl].
  rewrite nodesInserted_app, logsProcessed_app.
  cbn [nodesInserted logsProcessed flat_map app] in *.
  unfold nodesInserted, logsProcessed in *. rewrite Hn, Hl, !app_nil_r.
  clear Hn Hl.
  unfold postBlockBody, traceOf.
  run_body;
    first [ left; split; reflexivity
          | right; do 3 eexists; repeat split; eauto;
            match goal with
            | H : fcs_InsertNode _ _ = _ |- _ => rewrite H; reflexivity
            end ].
Qed.

(** X19.  for a block with a non-nil payload the payload's block hash
    becomes the head of the forkchoice update, also when InsertNode or the
    log processing fails; PostBlockProcess returns InsertNode's error if it
    failed (the logs are then not processed), else the log processor's. *)
Theorem PostBlockProcess_payload_becomes_head
  s w (b : BeaconBlockData) (body : BeaconBlockBodyData)
  (p latest : ExecutionPayloadData) :
  IsNil b = false ->
  GetBody b = Some body -> IsNil body = false ->
  GetExecutionPayload body = Some p -> IsNil p = false ->
  GetLatestExecutionPayload (beaconState w) = Ok (Some latest) ->
  headsSent (traceOf (PostBlockProcess s w (Some b))) = [GetBlockHash p] /\
  resultOf (PostBlockProcess s w (Some b)) =
    Return
      match fcs_InsertNode s (GetBlockHash p) with
      | Some err => Some (Collab ForkchoiceStore err)
      | None => wrapErr ExecutionService
                  (es_ProcessLogsInETH1Block s (GetBlockHash p))
      end.
Proof.
  intros Hb Hbody Hnil Hpayload Hp Hlatest.
  unfold PostBlockProcess, with_defer, deferredFCU, postBlockBody,
    sendPostBlockFCU, sendFCU, frameOf, traceOf, resultOf, wrapErr.
  unfold IsNil, ReadOnlyBeaconBlock_Nillable, BeaconBlockBody_Nillable,
    ExecutionPayload_Nillable in *.
  unfold bind, method, return_if, try, emit, ret, return_, panic, load,
    store, call.
  cbn. rewrite Hb. cbn. rewrite Hbody. cbn. rewrite Hnil. cbn.
  rewrite Hpayload. cbn. rewrite Hp. cbn.
  destruct (fcs_InsertNode s (GetBlockHash p)); cbn.
  - rewrite Hlatest. cbn.
    destruct (ee_NotifyForkchoiceUpdate s _); cbn; auto.
  - destruct (es_ProcessLogsInETH1Block s (GetBlockHash p)); cbn;
      rewrite Hlatest; cbn;
      destruct (ee_NotifyForkchoiceUpdate s _); cbn; auto.
Qed.

End Service.

(** *** Runs on the example collaborators *)

(** C1 at a block whose body holds a nil payload pointer.  PostBlockProcess
    returns nil without touching the forkchoice store, and the deferred
    sendPostBlockFCU is entered once, with that payload.  The payload is not
    the nil interface, so sendPostBlockFCU takes its block hash (0) as head:
    the update does not fall back to 187, the block hash of the state's
    latest execution payload, which it uses as safe and finalized hash. *)
Theorem PostBlockProcess_nil_payload_pointer_head :
  PostBlockProcess (sampleService true None None None) sampleWorld
    (sampleBlock (Some (sampleBody (Some nilPayloadPointer)))) =
  (Some nilPayloadPointer,
   [CallSendPostBlockFCU (Some nilPayloadPointer);
    Println "LIGHT SEND FCU";
    CallNotifyForkchoiceUpdate
      {| State := {| HeadBlockHash := 0;
                     SafeBlockHash := 187;
                     FinalizedBlockHash := 187 |};
         ForkVersion := Deneb |}],
   Return None).
Proof. reflexivity. Qed.

(** The same block with a nil body: the head falls back to 187. *)
Example PostBlockProcess_nil_body_head :
  PostBlockProcess (sampleService true None None None) sampleWorld
    (sampleBlock (Some nilBodyPointer)) =
  (None,
   [CallSendPostBlockFCU None;
    Println "LIGHT SEND FCU";
    CallNotifyForkchoiceUpdate
      {| State := {| HeadBlockHash := 187;
                     SafeBlockHash := 187;
                     FinalizedBlockHash := 187 |};
         ForkVersion := Deneb |}],
   Return None).
Proof. reflexivity. Qed.

(** A nil block: nothing but the update, with the fallback head. *)
Example PostBlockProcess_nil_block_head :
  PostBlockProcess (sampleService true None None None) sampleWorld
    nilBlockPointer =
  (None,
   [CallSendPostBlockFCU None;
    Println "LIGHT SEND FCU";
    CallNotifyForkchoiceUpdate
      {| State := {| HeadBlockHash := 187;
                     SafeBlockHash := 187;
                     FinalizedBlockHash := 187 |};
         ForkVersion := Deneb |}],
   Return None).
Proof. reflexivity. Qed.

(** A log-processing error is logged and returned; the forkchoice update
    runs after it. *)
Example PostBlockProcess_logs_error :
  PostBlockProcess (sampleService true None None (Some "no logs"%string))
    sampleWorld (sampleBlock (Some (sampleBody (Some nextPayload)))) =
  (Some nextPayload,
   [CallInsertNode 187;
    CallProcessLogsInETH1Block 187;
    LoggerError "failed to process logs";
    CallSendPostBlockFCU (Some nextPayload);
    Println "LIGHT SEND FCU";
    CallNotifyForkchoiceUpdate
      {| State := {| HeadBlockHash := 187;
                     SafeBlockHash := 187;
                     FinalizedBlockHash := 187 |};
         ForkVersion := Deneb |}],
   Return (Some (Collab ExecutionService "no logs"))).
Proof. reflexivity. Qed.

(** A nil block interface: calling IsNil panics, and the deferred update
    still runs. *)
Example PostBlockProcess_panic_still_fires :
  PostBlockProcess (sampleService true None None None) sampleWorld None =
  (None,
   [CallSendPostBlockFCU None;
    Println "LIGHT SEND FCU";
    CallNotifyForkchoiceUpdate
      {| State := {| HeadBlockHash := 187;
                     SafeBlockHash := 187;
                     FinalizedBlockHash := 187 |};
         ForkVersion := Deneb |}],
   Panic).
Proof. reflexivity. Qed.

Lemma ProcessBeaconBlock_short_circuits_witness :
  let run :=
    ProcessBeaconBlock (sampleService false None None None) inOrder inOrder
      (sampleBlock (Some (sampleBody (Some nextPayload)))) tt sampleWorld in
  count isWave2 (traceOf run) = O /\
  frameOf run = sampleWorld /\
  exists err : Error,
    resultOf run = Return (Some err) /\
    Wait inOrder (Some (ErrorsNew "invalid payload")) None = Some err /\
    (Some (ErrorsNew "invalid payload") = Some err \/ None = Some err).
Proof.
  cbv zeta.
  assert (Hfails :
            snd (goroutine
                   (ValidateExecutionPayloadOnBlk
                      (sampleService false None None None) sampleWorld
                      (sampleBlock (Some (sampleBody (Some nextPayload))))))
            <> Some None \/
            wrapErr BlockValidator
              (bv_ValidateBlock (sampleService false None None None)
                 (beaconState sampleWorld)
                 (sampleBlock (Some (sampleBody (Some nextPayload)))))
            <> None).
  { left. vm_compute. discriminate. }
  destruct (proj1 (ProcessBeaconBlock_short_circuits
                     (sampleService false None None None) inOrder inOrder
                     (sampleBlock (Some (sampleBody (Some nextPayload))))
                     tt sampleWorld) Hfails) as (Hcount & Hframe & Herr).
  split; [exact Hcount | split; [exact Hframe |]].
  exact (Herr (Some (ErrorsNew "invalid payload")) eq_refl).
Defined.

(** An invalid payload stops the pipeline after the first wave. *)
Example ProcessBeaconBlock_invalid_payload :
  ProcessBeaconBlock (sampleService false None None None) inOrder inOrder
    (sampleBlock (Some (sampleBody (Some nextPayload)))) tt sampleWorld =
  (sampleWorld,
   [CallValidatePayload;
    CallNotifyNewPayload 101 (Some nextPayload) [] 7;
    CallValidateBlock],
   Return (Some (ErrorsNew "invalid payload"))).
Proof. reflexivity. Qed.

(** A valid block goes through both waves; the availability store has seen
    one ProcessBlobs. *)
Example ProcessBeaconBlock_success :
  ProcessBeaconBlock (sampleService true None None None) inOrder inOrder
    (sampleBlock (Some (sampleBody (Some nextPayload)))) tt sampleWorld =
  ({| beaconState := Verification.sampleState; availabilityStore := 1%nat |},
   [CallValidatePayload;
    CallNotifyNewPayload 101 (Some nextPayload) [] 7;
    CallValidateBlock;
    CallProcessBlobs;
    CallProcessBlock],
   Return None).
Proof. reflexivity. Qed.


Lemma ValidateExecutionPayloadOnBlk_error_classes_witness :
  resultOf
    (ValidateExecutionPayloadOnBlk
       (sampleService false None None None) sampleWorld
       (sampleBlock (Some (sampleBody (Some nextPayload)))) tt) =
  Return (Some (ErrorsNew "invalid payload")).
Proof.
  refine (proj2 (proj1 (proj2 (proj2
    (ValidateExecutionPayloadOnBlk_error_classes
       (sampleService false None None None) sampleWorld
       {| blkIsNil := false; GetBody := Some (sampleBody (Some nextPayload));
          GetSlot := 101; GetParentBlockRoot := 7 |}
       (sampleBody (Some nextPayload)) eq_refl)
    nextPayload eq_refl eq_refl) eq_refl eq_refl)) eq_refl).
Defined.

(** The engine's own error wins over its validity flag. *)
Example ValidateExecutionPayloadOnBlk_transport_error :
  resultOf
    (ValidateExecutionPayloadOnBlk
       (sampleService false (Some "connection refused"%string) None None)
       sampleWorld (sampleBlock (Some (sampleBody (Some nextPayload)))) tt) =
  Return (Some (Collab ExecutionService "connection refused")).
Proof. reflexivity. Qed.

Lemma ProcessBeaconBlock_second_wave_runs_both_witness :
  let run :=
    ProcessBeaconBlock blobsFailService inOrder inOrder
      (sampleBlock (Some (sampleBody (Some nextPayload)))) tt sampleWorld in
  availabilityStore (frameOf run) = 1%nat /\
  Primitives.GetSlot (beaconState (frameOf run)) = Ok 101 /\
  resultOf run = Return (Some (Collab StateProcessor "blob missing")).
Proof.
  cbv zeta.
  destruct (ProcessBeaconBlock_second_wave_runs_both
              blobsFailService inOrder inOrder
              (sampleBlock (Some (sampleBody (Some nextPayload)))) tt
              sampleWorld eq_refl eq_refl) as (_ & _ & Hframe & Hresult).
  rewrite Hframe, Hresult. repeat split.
Defined.


Lemma PostBlockProcess_payload_becomes_head_witness :
  headsSent
    (traceOf
       (PostBlockProcess
          (sampleService true None None (Some "no logs"%string)) sampleWorld
          (sampleBlock (Some (sampleBody (Some nextPayload)))))) = [187] /\
  resultOf
    (PostBlockProcess
       (sampleService true None None (Some "no logs"%string)) sampleWorld
       (sampleBlock (Some (sampleBody (Some nextPayload))))) =
  Return (Some (Collab ExecutionService "no logs")).
Proof.
  apply (PostBlockProcess_payload_becomes_head
           (sampleService true None None (Some "no logs"%string)) sampleWorld
           {| blkIsNil := false;
              GetBody := Some (sampleBody (Some nextPayload));
              GetSlot := 101; GetParentBlockRoot := 7 |}
           (sampleBody (Some nextPayload)) nextPayload
           (Verification.samplePayload 153 1002 0));
    reflexivity.
Defined.

Lemma PostBlockProcess_nil_body_falls_back_witness :
  headsSent
    (traceOf
       (PostBlockProcess (sampleService true None None None) sampleWorld
          (sampleBlock (Some nilBodyPointer)))) = [187].
Proof.
  refine (proj2 (proj2
    (PostBlockProcess_nil_body_falls_back
       (sampleService true None None None) sampleWorld
       {| blkIsNil := false; GetBody := Some nilBodyPointer;
          GetSlot := 101; GetParentBlockRoot := 7 |}
       (Verification.samplePayload 153 1002 0) _ eq_refl))).
  right. split; [reflexivity|]. exists nilBodyPointer. split; reflexivity.
Defined.


End BlockchainProps.

(* ===================================================================== *)
(** * Properties of the Withdrawal codec *)
(* ===================================================================== *)

Module EnginePrimitivesProps.
Import Go Ssz EnginePrimitives.

(** *** Bytes and little-endian integers *)

Lemma Z_of_byte_range (b : byte) : 0 <= Z_of_byte b < 256.
Proof.
  unfold Z_of_byte. pose proof (Strings.Byte.to_N_bounded b). lia.
Qed.

Lemma Z_of_byte_of_Z (z : Z) : Z_of_byte (byte_of_Z z) = z mod 256.
Proof.
  unfold Z_of_byte, byte_of_Z.
  assert (0 <= z mod 256 < 256) by (apply Z.mod_pos_bound; lia).
  destruct (Strings.Byte.of_N (Z.to_N (z mod 256))) eqn:E.
  - apply Strings.Byte.to_of_N in E. rewrite E. lia.
  - apply Strings.Byte.of_N_None_iff in E. lia.
Qed.

Lemma byte_of_Z_of_byte (b : byte) : byte_of_Z (Z_of_byte b) = b.
Proof.
  unfold byte_of_Z. pose proof (Z_of_byte_range b).
  rewrite Z.mod_small by lia. unfold Z_of_byte. rewrite N2Z.id.
  now rewrite Strings.Byte.of_to_N.
Qed.

Lemma length_le_encode (n : nat) : forall v, List.length (le_encode n v) = n.
Proof. induction n; intros; cbn; auto. Qed.

Lemma le_decode_encode (n : nat) : forall v,
  le_decode (le_encode n v) = v mod 256 ^ Z.of_nat n.
Proof.
  induction n as [|n IH]; intros v.
  - cbn. now rewrite Z.mod_1_r.
  - cbn [le_encode le_decode]. rewrite Z_of_byte_of_Z, IH.
    rewrite Nat2Z.inj_succ, Z.pow_succ_r by lia.
    rewrite Z.rem_mul_r by lia. lia.
Qed.

Lemma le_decode_range (bs : list byte) :
  0 <= le_decode bs < 256 ^ Z.of_nat (List.length bs).
Proof.
  induction bs as [|b bs IH].
  - cbn. lia.
  - cbn [le_decode List.length]. pose proof (Z_of_byte_range b).
    rewrite Nat2Z.inj_succ, Z.pow_succ_r by lia. lia.
Qed.

Lemma le_encode_decode (bs : list byte) :
  le_encode (List.length bs) (le_decode bs) = bs.
Proof.
  induction bs as [|b bs IH]; [reflexivity|].
  cbn [le_decode List.length le_encode]. pose proof (Z_of_byte_range b) as Hb.
  assert (Hmod : (Z_of_byte b + 256 * le_decode bs) mod 256
                 = Z_of_byte b mod 256).
  { rewrite (Z.mul_comm 256). apply Z_mod_plus_full. }
  assert (Hdiv : (Z_of_byte b + 256 * le_decode bs) / 256 = le_decode bs).
  { rewrite (Z.mul_comm 256), Z.div_add by lia.
    rewrite Z.div_small by lia. lia. }
  f_equal.
  - rewrite <- (byte_of_Z_of_byte b) at 2. unfold byte_of_Z. now rewrite Hmod.
  - now rewrite Hdiv.
Qed.

Lemma UnmarshallUint64_8 (bs : list byte) :
  List.length bs = 8%nat -> UnmarshallUint64 bs = Some (le_decode bs).
Proof.
  intros H. unfold UnmarshallUint64. rewrite H. cbn [Nat.leb].
  now rewrite <- H, firstn_all.
Qed.

(** *** Slices of a buffer given as a concatenation *)

Lemma slice_mid (a b c : list byte) :
  slice (a ++ b ++ c) (List.length a) (List.length a + List.length b) = Some b.
Proof.
  unfold slice.
  assert (H1 : (List.length a <=? List.length a + List.length b)%nat = true)
    by (apply Nat.leb_le; lia).
  assert (H2 : (List.length a + List.length b
                <=? List.length (a ++ b ++ c))%nat = true)
    by (apply Nat.leb_le; rewrite !length_app; lia).
  rewrite H1, H2. cbn [andb]. f_equal.
  rewrite skipn_app, skipn_all, Nat.sub_diag. cbn [skipn app].
  replace (List.length a + List.length b - List.length a)%nat
    with (List.length b) by lia.
  rewrite firstn_app, firstn_all, Nat.sub_diag. cbn. apply app_nil_r.
Qed.

Lemma split44 (buf : list byte) :
  List.length buf = 44%nat ->
  exists b0 b1 b2 b3 : list byte,
    buf = b0 ++ b1 ++ b2 ++ b3 /\
    List.length b0 = 8%nat /\ List.length b1 = 8%nat /\
    List.length b2 = 20%nat /\ List.length b3 = 8%nat.
Proof.
  intros H.
  exists (firstn 8 buf), (firstn 8 (skipn 8 buf)),
    (firstn 20 (skipn 16 buf)), (skipn 36 buf).
  repeat split.
  - rewrite <- (firstn_skipn 8 buf) at 1. f_equal.
    rewrite <- (firstn_skipn 8 (skipn 8 buf)) at 1. f_equal.
    rewrite skipn_skipn. cbn [Nat.add].
    rewrite <- (firstn_skipn 20 (skipn 16 buf)) at 1. f_equal.
    now rewrite skipn_skipn.
  - rewrite length_firstn. lia.
  - rewrite length_firstn, length_skipn. lia.
  - rewrite length_firstn, length_skipn. lia.
  - rewrite length_skipn. lia.
Qed.

Lemma unmarshalFields_app (w : Withdrawal) (b0 b1 b2 b3 : list byte) :
  List.length b0 = 8%nat -> List.length b1 = 8%nat ->
  List.length b2 = 20%nat -> List.length b3 = 8%nat ->
  unmarshalFields w (b0 ++ b1 ++ b2 ++ b3) =
  Next {| Index := le_decode b0;
          Validator := le_decode b1;
          Address := copy (Address w) b2;
          Amount := le_decode b3 |}.
Proof.
  intros H0 H1 H2 H3. unfold unmarshalFields.
  assert (S0 : slice (b0 ++ b1 ++ b2 ++ b3) 0 8 = Some b0).
  { pose proof (slice_mid [] b0 (b1 ++ b2 ++ b3)) as S.
    cbn [app List.length Nat.add] in S. now rewrite H0 in S. }
  assert (S1 : slice (b0 ++ b1 ++ b2 ++ b3) 8 16 = Some b1).
  { pose proof (slice_mid b0 b1 (b2 ++ b3)) as S.
    now rewrite H0, H1 in S. }
  assert (S2 : slice (b0 ++ b1 ++ b2 ++ b3) 16 36 = Some b2).
  { pose proof (slice_mid (b0 ++ b1) b2 b3) as S.
    rewrite length_app, H0, H1, H2, <- app_assoc in S. exact S. }
  assert (S3 : slice (b0 ++ b1 ++ b2 ++ b3) 36 44 = Some b3).
  { pose proof (slice_mid (b0 ++ b1 ++ b2) b3 []) as S.
    rewrite !length_app, H0, H1, H2, H3, app_nil_r, <- !app_assoc in S.
    exact S. }
  rewrite S0, S1, S2, S3. cbn [orPanic exec_bind].
  rewrite (UnmarshallUint64_8 b0 H0), (UnmarshallUint64_8 b1 H1),
    (UnmarshallUint64_8 b3 H3).
  reflexivity.
Qed.

Lemma copy_full (dst src : list byte) :
  List.length dst = List.length src -> copy dst src = src.
Proof.
  intros H. unfold copy. rewrite H, firstn_all, <- H, skipn_all.
  apply app_nil_r.
Qed.

Lemma MarshalSSZTo_nil (w : Withdrawal) :
  fst (MarshalSSZTo w []) =
  le_encode 8 (Index w) ++ le_encode 8 (Validator w) ++ Address w
    ++ le_encode 8 (Amount w).
Proof.
  unfold MarshalSSZTo, MarshalUint64. cbn [fst app].
  now rewrite <- !app_assoc.
Qed.

(** X22.  MarshalSSZTo appends to the buffer it is given: the buffer stays
    as a prefix, the bytes added do not depend on it, there are exactly
    SizeSSZ() = 44 of them, and the error is nil. *)
Theorem MarshalSSZTo_appends_SizeSSZ_bytes (w : Withdrawal) (buf : list byte) :
  List.length (Address w) = 20%nat ->
  fst (MarshalSSZTo w buf) = buf ++ fst (MarshalSSZTo w []) /\
  Z.of_nat (List.length (fst (MarshalSSZTo w []))) = SizeSSZ w /\
  snd (MarshalSSZTo w buf) = None.
Proof.
  intros Haddr. split; [|split].
  - rewrite MarshalSSZTo_nil. unfold MarshalSSZTo, MarshalUint64. cbn [fst].
    now rewrite <- !app_assoc.
  - rewrite MarshalSSZTo_nil, !length_app, !length_le_encode, Haddr.
    reflexivity.
  - reflexivity.
Qed.

Lemma MarshalSSZTo_appends_SizeSSZ_bytes_witness :
  fst (MarshalSSZTo sampleWithdrawal [Corelib.Init.Byte.xff]) =
  [Corelib.Init.Byte.xff] ++ fst (MarshalSSZTo sampleWithdrawal []).
Proof.
  apply (proj1 (MarshalSSZTo_appends_SizeSSZ_bytes sampleWithdrawal
                  [Corelib.Init.Byte.xff] eq_refl)).
Defined.

(** X23.  decoding what MarshalSSZTo wrote gives the withdrawal back: for a
    withdrawal whose fields fit their Go types, UnmarshalSSZ on its
    encoding returns nil and leaves the receiver equal to it, whatever the
    receiver held before. *)
Theorem UnmarshalSSZ_MarshalSSZTo (w receiver : Withdrawal) :
  wellTyped w ->
  List.length (Address receiver) = 20%nat ->
  UnmarshalSSZ receiver (fst (MarshalSSZTo w [])) = (w, Return None).
Proof.
  intros (Hi & Hv & Ha & Hm) Hr. unfold UnmarshalSSZ.
  rewrite MarshalSSZTo_nil.
  rewrite !length_app, !length_le_encode, Ha. cbn [Nat.add Z.of_nat].
  cbn [Z.eqb Pos.eqb negb Pos.of_succ_nat Pos.succ].
  rewrite unmarshalFields_app by (rewrite ?length_le_encode; auto).
  rewrite !le_decode_encode, copy_full by congruence.
  unfold is_uint64, two64 in *.
  rewrite !Z.mod_small by (cbn; lia).
  destruct w; reflexivity.
Qed.

Lemma UnmarshalSSZ_MarshalSSZTo_witness :
  UnmarshalSSZ zeroWithdrawal (fst (MarshalSSZTo sampleWithdrawal [])) =
  (sampleWithdrawal, Return None).
Proof.
  apply (UnmarshalSSZ_MarshalSSZTo sampleWithdrawal zeroWithdrawal).
  - unfold wellTyped, is_uint64, two64. cbn. lia.
  - reflexivity.
Defined.

(** X24.  UnmarshalSSZ accepts exactly the buffers of 44 bytes.  Any other
    length gives ErrSize and leaves the receiver untouched; a 44-byte
    buffer always decodes, to fields that fit their Go types; and no
    buffer makes the slicing or the integer reads panic. *)
Theorem UnmarshalSSZ_checks_size (w : Withdrawal) (buf : list byte) :
  (List.length buf <> 44%nat ->
   UnmarshalSSZ w buf = (w, Return (Some ErrSize))) /\
  (List.length buf = 44%nat ->
   snd (UnmarshalSSZ w buf) = Return None /\
   (List.length (Address w) = 20%nat -> wellTyped (fst (UnmarshalSSZ w buf)))) /\
  snd (UnmarshalSSZ w buf) <> Panic.
Proof.
  assert (Hbad : List.length buf <> 44%nat ->
                 UnmarshalSSZ w buf = (w, Return (Some ErrSize))).
  { intros H. unfold UnmarshalSSZ.
    destruct (Z.of_nat (List.length buf) =? 44) eqn:E; [|reflexivity].
    apply Z.eqb_eq in E. lia. }
  assert (Hgood : List.length buf = 44%nat ->
                  snd (UnmarshalSSZ w buf) = Return None /\
                  (List.length (Address w) = 20%nat ->
                   wellTyped (fst (UnmarshalSSZ w buf)))).
  { intros H. destruct (split44 buf H) as (b0 & b1 & b2 & b3 & -> & H0 & H1 & H2 & H3).
    unfold UnmarshalSSZ. rewrite H. cbn [Z.of_nat Z.eqb Pos.eqb negb Pos.of_succ_nat Pos.succ].
    rewrite (unmarshalFields_app w b0 b1 b2 b3 H0 H1 H2 H3). cbn [fst snd].
    split; [reflexivity|]. intros Ha. unfold wellTyped, is_uint64, two64.
    cbn [Index Validator Address Amount].
    pose proof (le_decode_range b0) as R0. pose proof (le_decode_range b1) as R1.
    pose proof (le_decode_range b3) as R3. rewrite H0 in R0. rewrite H1 in R1.
    rewrite H3 in R3. rewrite copy_full by congruence.
    change (256 ^ Z.of_nat 8) with (2 ^ 64) in *. auto. }
  split; [exact Hbad | split; [exact Hgood|]].
  destruct (Nat.eq_dec (List.length buf) 44) as [H | H].
  - destruct (Hgood H) as [-> _]. discriminate.
  - rewrite (Hbad H). discriminate.
Qed.

(** X25.  encoding what UnmarshalSSZ read gives the buffer back: every
    44-byte buffer is the encoding of the withdrawal it decodes to. *)
Theorem MarshalSSZTo_UnmarshalSSZ (receiver : Withdrawal) (buf : list byte) :
  List.length buf = 44%nat ->
  List.length (Address receiver) = 20%nat ->
  fst (MarshalSSZTo (fst (UnmarshalSSZ receiver buf)) []) = buf.
Proof.
  intros H Hr.
  destruct (split44 buf H) as (b0 & b1 & b2 & b3 & -> & H0 & H1 & H2 & H3).
  unfold UnmarshalSSZ. rewrite H.
  cbn [Z.of_nat Z.eqb Pos.eqb negb Pos.of_succ_nat Pos.succ].
  rewrite (unmarshalFields_app receiver b0 b1 b2 b3 H0 H1 H2 H3). cbn [fst].
  rewrite MarshalSSZTo_nil. cbn [Index Validator Address Amount].
  rewrite copy_full by congruence.
  assert (E : forall bs : list byte,
             List.length bs = 8%nat -> le_encode 8 (le_decode bs) = bs).
  { intros bs Hbs. rewrite <- Hbs. apply le_encode_decode. }
  now rewrite (E b0 H0), (E b1 H1), (E b3 H3).
Qed.

Lemma MarshalSSZTo_UnmarshalSSZ_witness :
  fst (MarshalSSZTo
         (fst (UnmarshalSSZ zeroWithdrawal (repeat Corelib.Init.Byte.x5a 44))) [])
  = repeat Corelib.Init.Byte.x5a 44.
Proof.
  apply (MarshalSSZTo_UnmarshalSSZ zeroWithdrawal
           (repeat Corelib.Init.Byte.x5a 44)); reflexivity.
Defined.

End EnginePrimitivesProps.
